(** * GeminiLiveService: the live voice session controller

    A shallow embedding of [src/services/geminiService.ts] and the
    properties of its message handler, capture callback and teardown.

    Conventions of the embedding.
    - A JavaScript [number] that carries a time or an amplitude is a real
      ([R]): [Math.max] is [Rmax], [Math.sqrt] is [sqrt].  The integer
      returned by [Date.now()] is a [Z].
    - The browser and SDK objects the class holds (audio contexts, media
      stream, nodes, the transport session) are opaque handles.
    - The calls that leave the class (host callbacks, transport sends,
      [console.error], and the Web Audio calls that start, wire or release
      something) are recorded, in program order, in a log of [Event]s.
    - A method is an [Action]: it takes the instance's fields and returns
      either normally or with an exception, in both cases with the fields
      as they were left and with the log of what was done up to there (an
      exception does not roll anything back).
    - Values that a method reads from outside (the output clock, the wall
      clock, fresh handles, the outcome of a permission prompt) are passed
      in, one record per method.
    - Event handling is single-threaded: a handler runs to its end before
      the next event is taken, and a host callback returns normally.  The
      one suspension point that is modelled is the last [await] of
      [connect], because the transport's [onopen] fires there. *)

From Stdlib Require Import Reals Lra List String Ascii ZArith Lia Bool.
From Stdlib Require Import Strings.Byte DecimalString Sorted.
From Stdlib Require DecimalZ DecimalPos.
Import ListNotations.

Local Open Scope string_scope.
Local Open Scope list_scope.
Local Open Scope R_scope.

(** ** Handles of external objects *)

Inductive AudioContext := AudioContextRef (id : nat).
Inductive MediaStream := MediaStreamRef (id : nat).
Inductive ScriptProcessorNode := ScriptProcessorRef (id : nat).
Inductive MediaStreamAudioSourceNode := MediaStreamSourceRef (id : nat).
Inductive Session := SessionRef (id : nat).

(** An [AudioBuffer] as Web Audio exposes it to this code: only
    [duration] is read, and the platform computes it as
    [length / sampleRate]. *)
Record AudioBuffer := mkAudioBuffer {
  buf_length : nat;
  buf_sampleRate : positive
}.

Definition duration (b : AudioBuffer) : R :=
  INR (buf_length b) / IPR (buf_sampleRate b).

(** What a [catch] clause can receive. *)
Inductive Exn :=
| DecodeError (msg : string)
| NotAllowedError (msg : string)
| ConnectError (msg : string).

(** ** Inbound messages *)

Inductive ArgValue :=
| ArgString (s : string)
| ArgNumber (n : Z).

(** [fc.args]: a JSON object, kept as the list of its fields. *)
Definition Args := list (string * ArgValue).

Record FunctionCall := mkFunctionCall {
  fc_id : string;
  fc_name : string;
  fc_args : Args
}.

(** [message.toolCall], on the messages the handler is written for:
    those whose [functionCalls] is an array (the loop at line 165 iterates
    over it without a guard). *)
Record LiveServerToolCall := mkToolCall {
  functionCalls : list FunctionCall
}.

Record Blob := mkBlob { blob_data : option string }.
Record Part := mkPart { inlineData : option Blob }.
Record Content := mkContent { parts : option (list Part) }.
Record LiveServerContent := mkServerContent { modelTurn : option Content }.

Record LiveServerMessage := mkMessage {
  serverContent : option LiveServerContent;
  toolCall : option LiveServerToolCall
}.

(** ** Outbound tool responses *)

Record ToolResult := mkToolResult {
  status : string;
  ticketId : string
}.

(** One element of [functionResponses]; [fr_result] is the object at
    [response.result]. *)
Record FunctionResponse := mkFunctionResponse {
  fr_id : string;
  fr_name : string;
  fr_result : ToolResult
}.

(** ** Observable effects *)

Inductive Event :=
| StatusChange (text : string)
| AudioLevel (level : R)
| ReportSubmitted (report : Args)
| SendRealtimeInput (sess : Session) (mimeType data : string)
| SendToolResponse (sess : Session) (functionResponses : list FunctionResponse)
| ConsoleError (msg : string) (e : Exn)
| SourceStart (ctx : AudioContext) (buffer : AudioBuffer) (when : R)
| ContextResume (ctx : AudioContext)
| ContextClose (ctx : AudioContext)
| GetUserMedia
| LiveConnect (outcome : Exn + Session)
| CreateMediaStreamSource (ctx : AudioContext) (src : MediaStreamAudioSourceNode)
| CreateScriptProcessor (ctx : AudioContext) (proc : ScriptProcessorNode)
                        (bufferSize : nat)
| SetOnAudioProcess (proc : ScriptProcessorNode) (installed : bool)
| ConnectSourceToProcessor (src : MediaStreamAudioSourceNode)
                           (proc : ScriptProcessorNode)
| ConnectProcessorToDestination (proc : ScriptProcessorNode) (ctx : AudioContext)
| ProcessorDisconnect (proc : ScriptProcessorNode)
| SourceDisconnect (src : MediaStreamAudioSourceNode)
| TracksStop (st : MediaStream).

(** ** The fields of a [GeminiLiveService] instance

    A callback field holds [true] when the host has installed a function
    and [false] when it is [null]; [sessionPromise] holds the outcome
    that the promise settles with. *)
Record Service := mkService {
  inputAudioContext : option AudioContext;
  outputAudioContext : option AudioContext;
  stream : option MediaStream;
  processor : option ScriptProcessorNode;
  source : option MediaStreamAudioSourceNode;
  nextStartTime : R;
  sessionPromise : option (Exn + Session);
  currentSession : option Session;
  onReportSubmitted : bool;
  onAudioLevel : bool;
  onStatusChange : bool
}.

(** The instance as the constructor and the field initialisers leave it,
    before the host installs callbacks. *)
Definition new_service : Service :=
  mkService None None None None None 0 None None false false false.

Definition set_inputAudioContext (v : option AudioContext) (s : Service) :=
  mkService v (outputAudioContext s) (stream s) (processor s) (source s)
            (nextStartTime s) (sessionPromise s) (currentSession s)
            (onReportSubmitted s) (onAudioLevel s) (onStatusChange s).
Definition set_outputAudioContext (v : option AudioContext) (s : Service) :=
  mkService (inputAudioContext s) v (stream s) (processor s) (source s)
            (nextStartTime s) (sessionPromise s) (currentSession s)
            (onReportSubmitted s) (onAudioLevel s) (onStatusChange s).
Definition set_stream (v : option MediaStream) (s : Service) :=
  mkService (inputAudioContext s) (outputAudioContext s) v (processor s)
            (source s) (nextStartTime s) (sessionPromise s) (currentSession s)
            (onReportSubmitted s) (onAudioLevel s) (onStatusChange s).
Definition set_processor (v : option ScriptProcessorNode) (s : Service) :=
  mkService (inputAudioContext s) (outputAudioContext s) (stream s) v
            (source s) (nextStartTime s) (sessionPromise s) (currentSession s)
            (onReportSubmitted s) (onAudioLevel s) (onStatusChange s).
Definition set_source (v : option MediaStreamAudioSourceNode) (s : Service) :=
  mkService (inputAudioContext s) (outputAudioContext s) (stream s)
            (processor s) v (nextStartTime s) (sessionPromise s)
            (currentSession s)
            (onReportSubmitted s) (onAudioLevel s) (onStatusChange s).
Definition set_nextStartTime (v : R) (s : Service) :=
  mkService (inputAudioContext s) (outputAudioContext s) (stream s)
            (processor s) (source s) v (sessionPromise s) (currentSession s)
            (onReportSubmitted s) (onAudioLevel s) (onStatusChange s).
Definition set_sessionPromise (v : option (Exn + Session)) (s : Service) :=
  mkService (inputAudioContext s) (outputAudioContext s) (stream s)
            (processor s) (source s) (nextStartTime s) v (currentSession s)
            (onReportSubmitted s) (onAudioLevel s) (onStatusChange s).
Definition set_currentSession (v : option Session) (s : Service) :=
  mkService (inputAudioContext s) (outputAudioContext s) (stream s)
            (processor s) (source s) (nextStartTime s) (sessionPromise s) v
            (onReportSubmitted s) (onAudioLevel s) (onStatusChange s).

(** ** Methods as actions on the fields *)

Inductive Outcome (A : Type) :=
| Returned (a : A) (s : Service) (log : list Event)
| Thrown (e : Exn) (s : Service) (log : list Event).
Arguments Returned {A} a s log.
Arguments Thrown {A} e s log.

Definition Action (A : Type) := Service -> Outcome A.

Definition ret {A} (a : A) : Action A := fun s => Returned a s [].

Definition bind {A B} (m : Action A) (k : A -> Action B) : Action B :=
  fun s =>
    match m s with
    | Returned a s1 l1 =>
        match k a s1 with
        | Returned b s2 l2 => Returned b s2 (l1 ++ l2)
        | Thrown e s2 l2 => Thrown e s2 (l1 ++ l2)
        end
    | Thrown e s1 l1 => Thrown e s1 l1
    end.

Declare Scope action_scope.
Delimit Scope action_scope with action.
Notation "x <- m ;; k" := (bind m (fun x => k))
  (at level 100, m at next level, right associativity) : action_scope.
Notation "m ;; k" := (bind m (fun _ => k))
  (at level 100, right associativity) : action_scope.
Local Open Scope action_scope.

Definition this : Action Service := fun s => Returned s s [].
Definition assign (f : Service -> Service) : Action unit :=
  fun s => Returned tt (f s) [].
Definition emit (e : Event) : Action unit := fun s => Returned tt s [e].
Definition throw {A} (e : Exn) : Action A := fun s => Thrown e s [].

(** [try { body } catch (e) { handler e }] *)
Definition try_catch {A} (body : Action A) (handler : Exn -> Action A)
  : Action A :=
  fun s =>
    match body s with
    | Returned a s1 l1 => Returned a s1 l1
    | Thrown e s1 l1 =>
        match handler e s1 with
        | Returned a s2 l2 => Returned a s2 (l1 ++ l2)
        | Thrown e' s2 l2 => Thrown e' s2 (l1 ++ l2)
        end
    end.

(** An awaited helper that resolves or rejects. *)
Definition await {A} (r : Exn + A) : Action A :=
  match r with
  | inr a => ret a
  | inl e => throw e
  end.

(** [cb?.(arg)]: the call happens only when a callback is installed. *)
Definition call_optional (installed : bool) (e : Event) : Action unit :=
  if installed then emit e else ret tt.

Definition notifyStatus (text : string) : Action unit :=
  s <- this;; call_optional (onStatusChange s) (StatusChange text).

Definition state_of {A} (o : Outcome A) : Service :=
  match o with Returned _ s _ | Thrown _ s _ => s end.
Definition log_of {A} (o : Outcome A) : list Event :=
  match o with Returned _ _ l | Thrown _ _ l => l end.

(** ** The helpers imported from [./audioUtils]

    The four functions are used by the class but are defined in another
    module; every method below takes them as given.  [decodeAudioData]
    is the only one that is awaited inside a [try] block; it resolves with
    a buffer or rejects. *)
Record AudioUtils := mkAudioUtils {
  float32ToInt16PCM : list R -> list Z;
  arrayBufferToBase64 : list byte -> string;
  base64ToUint8Array : string -> list byte;
  decodeAudioData : list byte -> AudioContext -> Exn + AudioBuffer
}.

(** [new Uint8Array(pcmData.buffer)]: the bytes of an [Int16Array], two
    per sample, low byte first, two's complement. *)
Definition byte_of_Z (z : Z) : byte :=
  match Byte.of_N (Z.to_N (z mod 256)) with
  | Some b => b
  | None => x00
  end.

Definition int16_bytes (v : Z) : list byte :=
  let u := (v mod 65536)%Z in
  [byte_of_Z u; byte_of_Z (u / 256)].

Definition uint8_view (pcm : list Z) : list byte := flat_map int16_bytes pcm.

(** [n.toString()] for an integral number: its decimal digits, with a
    leading minus sign when negative. *)
Definition toString (n : Z) : string := NilZero.string_of_int (Z.to_int n).

(** [o?.f]: [undefined] propagates. *)
Definition opt_chain {A B} (o : option A) (f : A -> option B) : option B :=
  match o with
  | Some a => f a
  | None => None
  end.

(** [message.serverContent?.modelTurn?.parts?.[0]?.inlineData?.data] *)
Definition base64Audio_of (message : LiveServerMessage) : option string :=
  opt_chain (serverContent message) (fun sc =>
  opt_chain (modelTurn sc) (fun mt =>
  opt_chain (parts mt) (fun ps =>
  opt_chain (nth_error ps 0) (fun p =>
  opt_chain (inlineData p) blob_data)))).

(** Truthiness of a possibly missing string: present and not empty. *)
Definition truthy_string (o : option string) : option string :=
  match o with
  | Some EmptyString => None
  | Some s => Some s
  | None => None
  end.

Definition isReportEmergency (fc : FunctionCall) : bool :=
  String.eqb (fc_name fc) "reportEmergency".

(** What [handleMessage] reads from outside while it runs: the output
    context's [currentTime] (line 148) and [Date.now()], whose value at
    the loop iteration over the call at position [i] is [dateNow i]. *)
Record MessageEnv := mkMessageEnv {
  currentTime : R;
  dateNow : nat -> Z
}.

(** What [connect] obtains from outside: the two contexts it constructs
    and whether each starts suspended, the outcome of the microphone
    prompt, and the outcome of the promise returned by
    [ai.live.connect]. *)
Record ConnectEnv := mkConnectEnv {
  newInputContext : AudioContext;
  inputSuspended : bool;
  newOutputContext : AudioContext;
  outputSuspended : bool;
  getUserMedia : Exn + MediaStream;
  liveConnect : Exn + Session
}.

(** The nodes [handleOpen] creates. *)
Record OpenEnv := mkOpenEnv {
  newSource : MediaStreamAudioSourceNode;
  newProcessor : ScriptProcessorNode
}.

Definition mkResponse (fc : FunctionCall) (now : Z) : FunctionResponse :=
  mkFunctionResponse (fc_id fc) (fc_name fc)
                     (mkToolResult "success" (toString now)).

Definition audio_mime : string := "audio/pcm;rate=16000".
Definition bufferSize : nat := 4096.

Section Methods.

Variable utils : AudioUtils.

(** *** [connect] (lines 54-104)

    [connect] runs up to its last [await] and yields the promise it
    awaits there; [connect_resumed] is the assignment that runs once that
    promise settles.  The transport may call [onopen] in between. *)
Definition connect (env : ConnectEnv) : Action (Exn + Session) :=
  notifyStatus "Initializing Audio...";;
  assign (set_inputAudioContext (Some (newInputContext env)));;
  assign (set_outputAudioContext (Some (newOutputContext env)));;
  (if inputSuspended env then emit (ContextResume (newInputContext env))
   else ret tt);;
  (if outputSuspended env then emit (ContextResume (newOutputContext env))
   else ret tt);;
  notifyStatus "Requesting Mic...";;
  emit GetUserMedia;;
  st <- await (getUserMedia env);;
  assign (set_stream (Some st));;
  notifyStatus "Connecting to HQ...";;
  emit (LiveConnect (liveConnect env));;
  assign (set_sessionPromise (Some (liveConnect env)));;
  ret (liveConnect env).

Definition connect_resumed (promise : Exn + Session) : Action unit :=
  sess <- await promise;;
  assign (set_currentSession (Some sess)).

(** *** The capture callback installed by [handleOpen] (lines 113-137) *)
Definition sum_squares (inputData : list R) : R :=
  fold_left (fun sum x => sum + x * x) inputData 0.

Definition rms (inputData : list R) : R :=
  sqrt (sum_squares inputData / INR (List.length inputData)).

Definition onaudioprocess (inputData : list R) : Action unit :=
  s <- this;;
  call_optional (onAudioLevel s) (AudioLevel (rms inputData));;
  let pcmData := float32ToInt16PCM utils inputData in
  let uint8Params := uint8_view pcmData in
  let base64Data := arrayBufferToBase64 utils uint8Params in
  s <- this;;
  match currentSession s with
  | Some sess => emit (SendRealtimeInput sess audio_mime base64Data)
  | None => ret tt
  end.

(** *** [handleOpen] (lines 106-141) *)
Definition handleOpen (env : OpenEnv) : Action unit :=
  notifyStatus "Live";;
  s <- this;;
  match inputAudioContext s, stream s with
  | Some ctx, Some st =>
      emit (CreateMediaStreamSource ctx (newSource env));;
      assign (set_source (Some (newSource env)));;
      emit (CreateScriptProcessor ctx (newProcessor env) bufferSize);;
      assign (set_processor (Some (newProcessor env)));;
      emit (SetOnAudioProcess (newProcessor env) true);;
      emit (ConnectSourceToProcessor (newSource env) (newProcessor env));;
      emit (ConnectProcessorToDestination (newProcessor env) ctx)
  | _, _ => ret tt
  end.

(** *** [handleMessage] (lines 143-183) *)

(** The [try] block of the audio branch (lines 151-156).  Creating the
    buffer source, giving it the buffer and connecting it to the
    destination are part of the one [SourceStart] event. *)
Definition playChunk (audioData : list byte) (ctx : AudioContext)
  : Action unit :=
  buffer <- await (decodeAudioData utils audioData ctx);;
  s <- this;;
  emit (SourceStart ctx buffer (nextStartTime s));;
  assign (set_nextStartTime (nextStartTime s + duration buffer)).

(** The audio branch (lines 145-160). *)
Definition handleAudio (env : MessageEnv) (message : LiveServerMessage)
  : Action unit :=
  s <- this;;
  match truthy_string (base64Audio_of message), outputAudioContext s with
  | Some base64Audio, Some ctx =>
      let audioData := base64ToUint8Array utils base64Audio in
      assign (set_nextStartTime (Rmax (nextStartTime s) (currentTime env)));;
      try_catch (playChunk audioData ctx)
                (fun e => emit (ConsoleError "Error decoding audio" e))
  | _, _ => ret tt
  end.

(** The [for...of] loop over the calls (lines 165-175); [i] is the
    position of the head of [calls] in the message, [responses] the array
    built so far. *)
Fixpoint forFunctionCalls (env : MessageEnv) (i : nat)
    (calls : list FunctionCall) (responses : list FunctionResponse)
  : Action (list FunctionResponse) :=
  match calls with
  | [] => ret responses
  | fc :: rest =>
      if isReportEmergency fc then
        s <- this;;
        call_optional (onReportSubmitted s) (ReportSubmitted (fc_args fc));;
        forFunctionCalls env (S i) rest
          (responses ++ [mkResponse fc (dateNow env i)])
      else forFunctionCalls env (S i) rest responses
  end.

(** The tool-call branch (lines 162-182). *)
Definition handleToolCalls (env : MessageEnv) (message : LiveServerMessage)
  : Action unit :=
  match toolCall message with
  | Some tc =>
      responses <- forFunctionCalls env 0 (functionCalls tc) [];;
      s <- this;;
      match responses, currentSession s with
      | _ :: _, Some sess => emit (SendToolResponse sess responses)
      | _, _ => ret tt
      end
  | None => ret tt
  end.

Definition handleMessage (env : MessageEnv) (message : LiveServerMessage)
  : Action unit :=
  handleAudio env message;;
  handleToolCalls env message.

(** Inbound messages are handled one after the other, in arrival
    order. *)
Fixpoint handleMessages (inputs : list (MessageEnv * LiveServerMessage))
  : Action unit :=
  match inputs with
  | [] => ret tt
  | (env, message) :: rest =>
      handleMessage env message;; handleMessages rest
  end.

(** *** [stop] (lines 185-210) *)
Definition stop : Action unit :=
  s <- this;;
  match processor s with
  | Some p => emit (ProcessorDisconnect p);; emit (SetOnAudioProcess p false)
  | None => ret tt
  end;;
  match source s with
  | Some src => emit (SourceDisconnect src)
  | None => ret tt
  end;;
  match stream s with
  | Some st => emit (TracksStop st)
  | None => ret tt
  end;;
  match inputAudioContext s with
  | Some ctx => emit (ContextClose ctx)
  | None => ret tt
  end;;
  match outputAudioContext s with
  | Some ctx => emit (ContextClose ctx)
  | None => ret tt
  end;;
  assign (set_processor None);;
  assign (set_source None);;
  assign (set_stream None);;
  assign (set_inputAudioContext None);;
  assign (set_outputAudioContext None);;
  assign (set_currentSession None);;
  notifyStatus "Disconnected".

(** *** The transport callbacks passed to [ai.live.connect] (lines 72-81) *)
Definition onclose : Action unit :=
  notifyStatus "Disconnected";;
  stop.

Definition onerror (err : Exn) : Action unit :=
  emit (ConsoleError "Live API Error:" err);;
  notifyStatus "Connection Error".

End Methods.

(** ** Reading a log *)

Definition reports_of (log : list Event) : list Args :=
  flat_map (fun e => match e with ReportSubmitted a => [a] | _ => [] end) log.

Definition tool_sends_of (log : list Event)
  : list (Session * list FunctionResponse) :=
  flat_map (fun e => match e with
                     | SendToolResponse sess rs => [(sess, rs)]
                     | _ => []
                     end) log.

Definition realtime_sends_of (log : list Event)
  : list (Session * string * string) :=
  flat_map (fun e => match e with
                     | SendRealtimeInput sess mime data => [(sess, mime, data)]
                     | _ => []
                     end) log.

Definition levels_of (log : list Event) : list R :=
  flat_map (fun e => match e with AudioLevel x => [x] | _ => [] end) log.

(** The buffers handed to [source.start], each with its start time. *)
Definition scheduled_of (log : list Event) : list (R * AudioBuffer) :=
  flat_map (fun e => match e with
                     | SourceStart _ buffer t => [(t, buffer)]
                     | _ => []
                     end) log.

Definition errors_of (log : list Event) : list (string * Exn) :=
  flat_map (fun e => match e with
                     | ConsoleError msg err => [(msg, err)]
                     | _ => []
                     end) log.

Definition statuses_of (log : list Event) : list string :=
  flat_map (fun e => match e with StatusChange t => [t] | _ => [] end) log.

Definition connects_of (log : list Event) : list (Exn + Session) :=
  flat_map (fun e => match e with LiveConnect o => [o] | _ => [] end) log.

(** Teardown calls on resources: disconnects, track stops, context
    closes. *)
Definition is_release (e : Event) : bool :=
  match e with
  | ProcessorDisconnect _ | SourceDisconnect _ | TracksStop _
  | ContextClose _ | SetOnAudioProcess _ false => true
  | _ => false
  end.

Definition releases_of (log : list Event) : list Event := filter is_release log.

Definition count_status (text : string) (log : list Event) : nat :=
  List.length (filter (String.eqb text) (statuses_of log)).

(** ** Vocabulary of the properties *)

(** The calls of a message that name the registered tool, and the
    others. *)
Definition recognized (calls : list FunctionCall) : list FunctionCall :=
  filter isReportEmergency calls.

Definition unrecognized (calls : list FunctionCall) : list FunctionCall :=
  filter (fun fc => negb (isReportEmergency fc)) calls.

(** The buffer a message's audio chunk decodes to in state [s], when the
    message carries a chunk, an output context exists and decoding
    succeeds. *)
Definition decoded_chunk (utils : AudioUtils) (s : Service)
    (message : LiveServerMessage) : option AudioBuffer :=
  match truthy_string (base64Audio_of message), outputAudioContext s with
  | Some base64Audio, Some ctx =>
      match decodeAudioData utils (base64ToUint8Array utils base64Audio) ctx with
      | inr buffer => Some buffer
      | inl _ => None
      end
  | _, _ => None
  end.

(** The error a message's audio chunk fails to decode with. *)
Definition decode_failure (utils : AudioUtils) (s : Service)
    (message : LiveServerMessage) : option Exn :=
  match truthy_string (base64Audio_of message), outputAudioContext s with
  | Some base64Audio, Some ctx =>
      match decodeAudioData utils (base64ToUint8Array utils base64Audio) ctx with
      | inr _ => None
      | inl e => Some e
      end
  | _, _ => None
  end.

(** The scheduling rule in the design's words (section 4.3, steps 2 to
    4), on the pairs (clock reading at arrival, decoded buffer):
    [startTime = max(nextStartTime, now)], then
    [nextStartTime = startTime + d]. *)
Fixpoint schedule_spec (next : R) (chunks : list (R * AudioBuffer))
  : list (R * AudioBuffer) :=
  match chunks with
  | [] => []
  | (now, buffer) :: rest =>
      let startTime := Rmax next now in
      (startTime, buffer) :: schedule_spec (startTime + duration buffer) rest
  end.

(** Root mean square in the textbook form: the square root of the mean
    of the squares. *)
Definition rms_spec (frame : list R) : R :=
  sqrt (fold_right Rplus 0 (map (fun x => x * x) frame)
        / INR (List.length frame)).

(** A frame of [n] samples of silence. *)
Definition silent_frame (n : nat) : list R := repeat 0 n.

(** ** Concrete instances used to run the methods *)

(** A small instance of the helpers: text is taken character for
    character, samples encode to zero, and a chunk whose byte length is
    odd is rejected, as 16-bit samples require. *)
Definition sample_utils : AudioUtils :=
  mkAudioUtils
    (fun samples => map (fun _ => 0%Z) samples)
    (fun bytes => string_of_list_byte bytes)
    (fun text => list_byte_of_string text)
    (fun bytes _ =>
       if Nat.even (List.length bytes)
       then inr (mkAudioBuffer (Nat.div2 (List.length bytes)) 24000)
       else inl (DecodeError "odd byte length")).

(** A freshly constructed service on which the host has installed its
    three callbacks. *)
Definition host_service : Service :=
  mkService None None None None None 0 None None true true true.

Definition first_connect : ConnectEnv :=
  mkConnectEnv (AudioContextRef 1) false (AudioContextRef 2) false
               (inr (MediaStreamRef 1)) (inr (SessionRef 1)).

Definition second_connect : ConnectEnv :=
  mkConnectEnv (AudioContextRef 3) false (AudioContextRef 4) false
               (inr (MediaStreamRef 2)) (inr (SessionRef 2)).

Definition first_open : OpenEnv :=
  mkOpenEnv (MediaStreamSourceRef 1) (ScriptProcessorRef 1).

(** The service after [connect()], the transport's [onopen], and the
    resolution of the session promise: the Live state. *)
Definition live_service : Service :=
  state_of ((promise <- connect first_connect;;
             handleOpen first_open;;
             connect_resumed promise) host_service).

(** A message carrying one audio chunk of the given text. *)
Definition audio_message (data : string) : LiveServerMessage :=
  mkMessage
    (Some (mkServerContent (Some (mkContent (Some [mkPart (Some (mkBlob (Some data)))])))))
    None.

(** A message carrying only tool calls. *)
Definition tool_message (calls : list FunctionCall) : LiveServerMessage :=
  mkMessage None (Some (mkToolCall calls)).

Definition flood_call : FunctionCall :=
  mkFunctionCall "1" "reportEmergency"
    [("emergencyType", ArgString "Flood");
     ("description", ArgString "Water rising")].

Definition fire_call : FunctionCall :=
  mkFunctionCall "2" "reportEmergency"
    [("emergencyType", ArgString "Fire");
     ("description", ArgString "Smoke in the stairwell");
     ("peopleCount", ArgNumber 3)].

Definition other_call : FunctionCall :=
  mkFunctionCall "3" "lookupShelter" [("city", ArgString "Hue")].

(** A clock that reads the same at every iteration. *)
Definition frozen_clock (now : R) (ms : Z) : MessageEnv :=
  mkMessageEnv now (fun _ => ms).

(** The property that a [connect()] issued in state [s] is rejected or
    leaves the service as it was and opens no transport session. *)
Definition connect_rejected_or_ignored (env : ConnectEnv) (s : Service)
  : Prop :=
  match connect env s with
  | Thrown _ _ _ => True
  | Returned _ s' log => s' = s /\ connects_of log = []
  end.

(** ** Closed forms of what the methods do, used in the proofs *)

(** The responses the loop appends, from position [i] on. *)
Fixpoint responses_from (env : MessageEnv) (i : nat) (calls : list FunctionCall)
  : list FunctionResponse :=
  match calls with
  | [] => []
  | fc :: rest =>
      if isReportEmergency fc
      then mkResponse fc (dateNow env i) :: responses_from env (S i) rest
      else responses_from env (S i) rest
  end.

(** The callback invocations the loop makes. *)
Definition report_events (installed : bool) (calls : list FunctionCall)
  : list Event :=
  if installed then map (fun fc => ReportSubmitted (fc_args fc)) (recognized calls)
  else [].

(** The log of the tool-call branch. *)
Definition tool_log (env : MessageEnv) (message : LiveServerMessage)
    (s : Service) : list Event :=
  match toolCall message with
  | Some tc =>
      report_events (onReportSubmitted s) (functionCalls tc) ++
      match responses_from env 0 (functionCalls tc), currentSession s with
      | r :: rs, Some sess => [SendToolResponse sess (r :: rs)]
      | _, _ => []
      end
  | None => []
  end.

(** The clock reading at arrival and the decoded buffer of each chunk. *)
Definition arrivals (chunks : list (MessageEnv * LiveServerMessage * AudioBuffer))
  : list (R * AudioBuffer) :=
  map (fun c => (currentTime (fst (fst c)), snd c)) chunks.

(** The fields as [stop] leaves them. *)
Definition stopped (s : Service) : Service :=
  mkService None None None None None (nextStartTime s) (sessionPromise s) None
            (onReportSubmitted s) (onAudioLevel s) (onStatusChange s).

(** The release calls [stop] makes, one group per resource held. *)
Definition release_log (s : Service) : list Event :=
  match processor s with
  | Some p => [ProcessorDisconnect p; SetOnAudioProcess p false]
  | None => []
  end ++
  match source s with Some src => [SourceDisconnect src] | None => [] end ++
  match stream s with Some st => [TracksStop st] | None => [] end ++
  match inputAudioContext s with Some ctx => [ContextClose ctx] | None => [] end ++
  match outputAudioContext s with Some ctx => [ContextClose ctx] | None => [] end.

(** The status report a method makes, when a callback is installed. *)
Definition status_log (s : Service) (text : string) : list Event :=
  if onStatusChange s then [StatusChange text] else [].

(** Two chunks of two and three samples, both arriving at clock 0. *)
Definition two_chunks : list (MessageEnv * LiveServerMessage * AudioBuffer) :=
  [(frozen_clock 0 0, audio_message "abcd", mkAudioBuffer 2 24000);
   (frozen_clock 0 0, audio_message "abcdef", mkAudioBuffer 3 24000)].

(** The positions, in increasing order, of the calls of a message that
    name the registered tool. *)
Definition recognized_positions (calls : list FunctionCall) : list nat :=
  filter (fun i => match nth_error calls i with
                   | Some fc => isReportEmergency fc
                   | None => false
                   end)
         (seq 0 (List.length calls)).

(** Reading a ticket back as a decimal numeral. *)
Definition ticket_number (ticket : string) : option Z :=
  option_map Z.of_int (NilZero.int_of_string ticket).

(** Reading bytes back as 16-bit samples, low byte first, two's
    complement: what a receiver of [audio/pcm] does with the payload. *)
Definition int16_of_bytes (lo hi : byte) : Z :=
  let u := (Z.of_N (Byte.to_N lo) + 256 * Z.of_N (Byte.to_N hi))%Z in
  if (u <? 32768)%Z then u else (u - 65536)%Z.

Fixpoint int16_view (bytes : list byte) : list Z :=
  match bytes with
  | lo :: hi :: rest => int16_of_bytes lo hi :: int16_view rest
  | _ => []
  end.

(** A second instance of the helpers, whose encoder yields a sample
    that uses both bytes and the sign bit. *)
Definition loud_utils : AudioUtils :=
  mkAudioUtils
    (fun samples => map (fun _ => (-12345)%Z) samples)
    (fun bytes => string_of_list_byte bytes)
    (fun text => list_byte_of_string text)
    (fun bytes _ => inl (DecodeError "not used")).

(** ** Sequences of events *)

(** A whole session start: [connect()], the transport's [onopen] while
    the session promise is pending, then the resumption of [connect]. *)
Definition start_session (env : ConnectEnv) (oenv : OpenEnv) : Action unit :=
  promise <- connect env;;
  handleOpen oenv;;
  connect_resumed promise.

(** The capture callback run on successive frames, in capture order. *)
Fixpoint captureFrames (utils : AudioUtils) (frames : list (list R))
  : Action unit :=
  match frames with
  | [] => ret tt
  | frame :: rest => onaudioprocess utils frame;; captureFrames utils rest
  end.

(** The [data] field of the message a frame is sent in (lines 125-127). *)
Definition payload (utils : AudioUtils) (frame : list R) : string :=
  arrayBufferToBase64 utils (uint8_view (float32ToInt16PCM utils frame)).

(** A scheduled buffer has finished playing when the next one starts. *)
Definition ends_before (x y : R * AudioBuffer) : Prop :=
  fst x + duration (snd x) <= fst y.

(** The fields after a session start that succeeds, with [st] the
    granted stream and [sess] the opened session. *)
Definition started (env : ConnectEnv) (oenv : OpenEnv) (st : MediaStream)
    (sess : Session) (s : Service) : Service :=
  mkService (Some (newInputContext env)) (Some (newOutputContext env))
            (Some st) (Some (newProcessor oenv)) (Some (newSource oenv))
            (nextStartTime s) (Some (inr sess)) (Some sess)
            (onReportSubmitted s) (onAudioLevel s) (onStatusChange s).

(** The context resumptions of [connect] (lines 61-62). *)
Definition resume_log (env : ConnectEnv) : list Event :=
  (if inputSuspended env then [ContextResume (newInputContext env)] else []) ++
  (if outputSuspended env then [ContextResume (newOutputContext env)] else []).

(** A session that has scheduled audio up to 10 seconds on its output
    clock. *)
Definition played_service : Service := set_nextStartTime 10 live_service.

(** * Properties *)

(** ** Running the message handler *)

Lemma bind_returned {A B} (m : Action A) (k : A -> Action B) s a s1 l1 b s2 l2 :
  m s = Returned a s1 l1 ->
  k a s1 = Returned b s2 l2 ->
  bind m k s = Returned b s2 (l1 ++ l2).
Proof. intros Hm Hk. unfold bind. rewrite Hm, Hk. reflexivity. Qed.

Lemma duration_nonneg (b : AudioBuffer) : 0 <= duration b.
Proof.
  unfold duration. apply Rmult_le_pos.
  - apply pos_INR.
  - left. apply Rinv_0_lt_compat. rewrite <- INR_IPR.
    apply lt_0_INR. apply Pos2Nat.is_pos.
Qed.

Lemma forFunctionCalls_run env calls : forall i responses s,
  forFunctionCalls env i calls responses s =
  Returned (responses ++ responses_from env i calls) s
           (report_events (onReportSubmitted s) calls).
Proof.
  induction calls as [|fc rest IH]; intros i responses s; simpl.
  - unfold ret, report_events. rewrite app_nil_r.
    destruct (onReportSubmitted s); reflexivity.
  - unfold report_events, recognized. simpl.
    destruct (isReportEmergency fc) eqn:Hfc.
    + unfold bind, this, call_optional.
      destruct (onReportSubmitted s) eqn:Hcb; unfold emit, ret;
        rewrite IH, <- app_assoc; unfold report_events, recognized;
        rewrite Hcb; reflexivity.
    + rewrite IH. reflexivity.
Qed.

Lemma responses_from_ids env calls : forall i,
  map fr_id (responses_from env i calls) = map fc_id (recognized calls).
Proof.
  induction calls as [|fc rest IH]; intros i; simpl; [reflexivity|].
  unfold recognized in *. simpl.
  destruct (isReportEmergency fc); simpl; rewrite IH; reflexivity.
Qed.

Lemma responses_from_length env calls i :
  List.length (responses_from env i calls) = List.length (recognized calls).
Proof.
  rewrite <- (length_map fr_id), responses_from_ids, length_map. reflexivity.
Qed.

Lemma responses_from_shape env calls : forall i,
  Forall (fun r => fr_name r = "reportEmergency" /\
                   status (fr_result r) = "success")
         (responses_from env i calls).
Proof.
  induction calls as [|fc rest IH]; intros i; simpl; [constructor|].
  destruct (isReportEmergency fc) eqn:Hfc; [|apply IH].
  constructor; [|apply IH]. split; [|reflexivity].
  simpl. unfold isReportEmergency in Hfc. apply String.eqb_eq in Hfc. exact Hfc.
Qed.

Lemma responses_from_tickets env calls : forall i r,
  In r (responses_from env i calls) ->
  exists j, (i <= j < i + List.length calls)%nat /\
            ticketId (fr_result r) = toString (dateNow env j).
Proof.
  induction calls as [|fc rest IH]; intros i r Hin; simpl in *; [contradiction|].
  destruct (isReportEmergency fc).
  - destruct Hin as [<-|Hin].
    + exists i. split; [lia|reflexivity].
    + destruct (IH _ _ Hin) as [j [Hj Ht]]. exists j. split; [lia|exact Ht].
  - destruct (IH _ _ Hin) as [j [Hj Ht]]. exists j. split; [lia|exact Ht].
Qed.

Lemma recognized_unrecognized_length calls :
  (List.length (recognized calls) + List.length (unrecognized calls)
   = List.length calls)%nat.
Proof.
  unfold recognized, unrecognized.
  induction calls as [|fc rest IH]; simpl; [reflexivity|].
  destruct (isReportEmergency fc); simpl; lia.
Qed.

Lemma reports_of_report_events installed calls :
  reports_of (report_events installed calls) =
  if installed then map fc_args (recognized calls) else [].
Proof.
  unfold report_events. destruct installed; [|reflexivity].
  induction (recognized calls) as [|fc l IH]; simpl; [reflexivity|].
  f_equal. exact IH.
Qed.

Lemma report_events_silent installed calls :
  tool_sends_of (report_events installed calls) = [] /\
  scheduled_of (report_events installed calls) = [] /\
  errors_of (report_events installed calls) = [] /\
  statuses_of (report_events installed calls) = [] /\
  releases_of (report_events installed calls) = [].
Proof.
  unfold report_events. destruct installed; [|repeat split].
  induction (recognized calls) as [|fc l IH]; simpl; [repeat split|exact IH].
Qed.

Lemma handleToolCalls_run env message s :
  handleToolCalls env message s = Returned tt s (tool_log env message s).
Proof.
  unfold handleToolCalls, tool_log.
  destruct (toolCall message) as [tc|]; [|reflexivity].
  unfold bind. rewrite forFunctionCalls_run. simpl.
  destruct (responses_from env 0 (functionCalls tc)) as [|r rs];
    destruct (currentSession s); reflexivity.
Qed.

(** The three ways the audio branch can go. *)
Lemma handleAudio_decoded utils env message s buffer :
  decoded_chunk utils s message = Some buffer ->
  exists ctx,
    outputAudioContext s = Some ctx /\
    handleAudio utils env message s =
    Returned tt
      (set_nextStartTime
         (Rmax (nextStartTime s) (currentTime env) + duration buffer) s)
      [SourceStart ctx buffer (Rmax (nextStartTime s) (currentTime env))].
Proof.
  unfold decoded_chunk, handleAudio. intros H.
  unfold bind at 1. unfold this at 1.
  destruct (truthy_string (base64Audio_of message)) as [b64|]; [|discriminate].
  destruct (outputAudioContext s) as [ctx|] eqn:Hctx; [|discriminate].
  destruct (decodeAudioData utils (base64ToUint8Array utils b64) ctx)
    as [e|b] eqn:Hdec; [discriminate|].
  injection H as ->. exists ctx. split; [reflexivity|].
  unfold bind, assign, try_catch, playChunk, bind, await, this, emit, ret.
  simpl. rewrite Hdec. simpl. reflexivity.
Qed.

Lemma handleAudio_failed utils env message s e :
  decode_failure utils s message = Some e ->
  handleAudio utils env message s =
  Returned tt
    (set_nextStartTime (Rmax (nextStartTime s) (currentTime env)) s)
    [ConsoleError "Error decoding audio" e].
Proof.
  unfold decode_failure, handleAudio. intros H.
  unfold bind at 1. unfold this at 1.
  destruct (truthy_string (base64Audio_of message)) as [b64|]; [|discriminate].
  destruct (outputAudioContext s) as [ctx|] eqn:Hctx; [|discriminate].
  destruct (decodeAudioData utils (base64ToUint8Array utils b64) ctx)
    as [e'|b] eqn:Hdec; [|discriminate].
  injection H as ->.
  unfold bind, assign, try_catch, playChunk, bind, await, throw, this, emit, ret.
  simpl. rewrite Hdec. simpl. reflexivity.
Qed.

Lemma handleAudio_skipped utils env message s :
  decoded_chunk utils s message = None ->
  decode_failure utils s message = None ->
  handleAudio utils env message s = Returned tt s [].
Proof.
  unfold decoded_chunk, decode_failure, handleAudio. intros H1 H2.
  unfold bind at 1. unfold this at 1.
  destruct (truthy_string (base64Audio_of message)) as [b64|]; [|reflexivity].
  destruct (outputAudioContext s) as [ctx|] eqn:Hctx; [|reflexivity].
  destruct (decodeAudioData utils (base64ToUint8Array utils b64) ctx);
    discriminate.
Qed.

Lemma set_nextStartTime_same s : set_nextStartTime (nextStartTime s) s = s.
Proof. destruct s; reflexivity. Qed.

(** Whatever the message, the audio branch returns normally, touches no
    field but the cursor, never moves the cursor back, and calls neither
    the host nor the transport. *)
Lemma handleAudio_run utils env message s :
  exists t log,
    handleAudio utils env message s = Returned tt (set_nextStartTime t s) log /\
    nextStartTime s <= t /\
    reports_of log = [] /\ tool_sends_of log = [] /\
    statuses_of log = [] /\ releases_of log = [].
Proof.
  destruct (decoded_chunk utils s message) as [buffer|] eqn:Hd.
  - destruct (handleAudio_decoded utils env message s buffer Hd)
      as [ctx [_ ->]].
    eexists _, _. split; [reflexivity|]. repeat split.
    pose proof (duration_nonneg buffer).
    pose proof (Rmax_l (nextStartTime s) (currentTime env)). lra.
  - destruct (decode_failure utils s message) as [e|] eqn:Hf.
    + rewrite (handleAudio_failed utils env message s e Hf).
      eexists _, _. split; [reflexivity|]. repeat split. apply Rmax_l.
    + rewrite (handleAudio_skipped utils env message s Hd Hf).
      exists (nextStartTime s), []. rewrite set_nextStartTime_same.
      repeat split. lra.
Qed.

(** A projection of a log distributes over concatenation. *)
Lemma reports_of_app l1 l2 :
  reports_of (l1 ++ l2) = reports_of l1 ++ reports_of l2.
Proof. apply flat_map_app. Qed.

Lemma tool_sends_of_app l1 l2 :
  tool_sends_of (l1 ++ l2) = tool_sends_of l1 ++ tool_sends_of l2.
Proof. apply flat_map_app. Qed.

Lemma scheduled_of_app l1 l2 :
  scheduled_of (l1 ++ l2) = scheduled_of l1 ++ scheduled_of l2.
Proof. apply flat_map_app. Qed.

Lemma errors_of_app l1 l2 :
  errors_of (l1 ++ l2) = errors_of l1 ++ errors_of l2.
Proof. apply flat_map_app. Qed.

Lemma statuses_of_app l1 l2 :
  statuses_of (l1 ++ l2) = statuses_of l1 ++ statuses_of l2.
Proof. apply flat_map_app. Qed.

Lemma releases_of_app l1 l2 :
  releases_of (l1 ++ l2) = releases_of l1 ++ releases_of l2.
Proof. apply filter_app. Qed.

Create Rewrite HintDb log_split.
#[local] Hint Rewrite reports_of_app tool_sends_of_app scheduled_of_app
  errors_of_app statuses_of_app releases_of_app : log_split.

(** ** Tool calls *)

(** C1.  An inbound message with [k] calls named [reportEmergency] and
    [m] calls of another name: the loop builds exactly [k] responses, one
    per recognized call and in the order of the calls (same ids, every
    name [reportEmergency], status [success]), none for the other [m];
    the host callback is invoked [k] times, with the recognized calls'
    arguments in order; and the [k] responses go out in one
    [sendToolResponse] message, which is sent only when [k >= 1] (and a
    session handle is held). *)
Theorem tool_call_completeness utils env message s tc k m :
  toolCall message = Some tc ->
  onReportSubmitted s = true ->
  List.length (recognized (functionCalls tc)) = k ->
  List.length (unrecognized (functionCalls tc)) = m ->
  exists s' log responses,
    handleMessage utils env message s = Returned tt s' log /\
    (forall s0, exists l0,
        forFunctionCalls env 0 (functionCalls tc) [] s0
        = Returned responses s0 l0) /\
    List.length responses = k /\
    (List.length responses + m = List.length (functionCalls tc))%nat /\
    map fr_id responses = map fc_id (recognized (functionCalls tc)) /\
    Forall (fun r => fr_name r = "reportEmergency" /\
                     status (fr_result r) = "success") responses /\
    reports_of log = map fc_args (recognized (functionCalls tc)) /\
    List.length (reports_of log) = k /\
    tool_sends_of log =
      match currentSession s with
      | Some sess => if (1 <=? k)%nat then [(sess, responses)] else []
      | None => []
      end.
Proof.
  intros Htc Hcb Hk Hm.
  destruct (handleAudio_run utils env message s)
    as [t [log1 [Hrun [_ [Hrep [Hsend _]]]]]].
  exists (set_nextStartTime t s),
         (log1 ++ tool_log env message (set_nextStartTime t s)),
         (responses_from env 0 (functionCalls tc)).
  split.
  { unfold handleMessage.
    apply bind_returned with (a := tt) (s1 := set_nextStartTime t s);
      [exact Hrun | apply handleToolCalls_run]. }
  split.
  { intros s0. eexists. rewrite forFunctionCalls_run. reflexivity. }
  rewrite responses_from_length, responses_from_ids.
  split; [exact Hk|].
  split; [rewrite <- Hm; apply recognized_unrecognized_length|].
  split; [reflexivity|].
  split; [apply responses_from_shape|].
  assert (Hreports : reports_of (log1 ++ tool_log env message (set_nextStartTime t s))
                     = map fc_args (recognized (functionCalls tc))).
  { unfold tool_log. rewrite Htc. simpl. rewrite Hcb.
    autorewrite with log_split.
    rewrite Hrep, (reports_of_report_events true). simpl.
    destruct (responses_from env 0 (functionCalls tc));
      destruct (currentSession s); simpl; rewrite app_nil_r; reflexivity. }
  split; [exact Hreports|].
  split; [rewrite Hreports, length_map; exact Hk|].
  unfold tool_log. rewrite Htc. simpl.
  autorewrite with log_split. rewrite Hsend. simpl.
  destruct (report_events_silent (onReportSubmitted s) (functionCalls tc))
    as [-> _]. simpl.
  subst k. rewrite <- (responses_from_length env (functionCalls tc) 0).
  destruct (responses_from env 0 (functionCalls tc)) as [|r rs];
    destruct (currentSession s) as [sess|]; reflexivity.
Qed.

Lemma tool_call_completeness_witness :
  toolCall (tool_message [flood_call; other_call; fire_call])
    = Some (mkToolCall [flood_call; other_call; fire_call]) /\
  onReportSubmitted live_service = true /\
  exists s' log responses,
    handleMessage sample_utils (frozen_clock 0 1700000000000)
                  (tool_message [flood_call; other_call; fire_call])
                  live_service
    = Returned tt s' log /\
    (forall s0, exists l0,
        forFunctionCalls (frozen_clock 0 1700000000000) 0
                         [flood_call; other_call; fire_call] [] s0
        = Returned responses s0 l0) /\
    List.length responses = 2%nat /\
    (List.length responses + 1 = 3)%nat /\
    map fr_id responses = ["1"; "2"] /\
    Forall (fun r => fr_name r = "reportEmergency" /\
                     status (fr_result r) = "success") responses /\
    reports_of log = [fc_args flood_call; fc_args fire_call] /\
    List.length (reports_of log) = 2%nat /\
    tool_sends_of log = [(SessionRef 1, responses)].
Proof.
  split; [reflexivity|]. split; [reflexivity|].
  apply (tool_call_completeness sample_utils (frozen_clock 0 1700000000000)
           (tool_message [flood_call; other_call; fire_call]) live_service
           (mkToolCall [flood_call; other_call; fire_call]) 2 1);
    reflexivity.
Defined.

(** ** Ticket identifiers *)

Lemma string_of_uint_nonempty d : NilZero.string_of_uint d <> EmptyString.
Proof. destruct d; simpl; discriminate. Qed.

Lemma toString_nonempty n : toString n <> EmptyString.
Proof.
  unfold toString, NilZero.string_of_int.
  destruct (Z.to_int n); [apply string_of_uint_nonempty | discriminate].
Qed.

Lemma toString_reads_back n : ticket_number (toString n) = Some n.
Proof.
  unfold ticket_number, toString. rewrite NilZero.isi.
  - simpl. rewrite DecimalZ.of_to. reflexivity.
  - destruct n; simpl; intros H; [discriminate H | | discriminate H].
    injection H as H. exact (DecimalPos.Unsigned.to_uint_nonnil _ H).
  - destruct n; simpl; intros H; [discriminate H | discriminate H |].
    injection H as H. exact (DecimalPos.Unsigned.to_uint_nonnil _ H).
Qed.

Lemma recognized_positions_cons fc rest :
  recognized_positions (fc :: rest)
  = (if isReportEmergency fc then [0%nat] else [])
      ++ map S (recognized_positions rest).
Proof.
  unfold recognized_positions.
  cbn [List.length seq filter nth_error].
  rewrite <- seq_shift, filter_map_swap.
  cbn [nth_error].
  destruct (isReportEmergency fc); reflexivity.
Qed.

Lemma Forall2_map_right {A B C} (P : A -> C -> Prop) (f : B -> C) l1 l2 :
  Forall2 (fun a b => P a (f b)) l1 l2 -> Forall2 P l1 (map f l2).
Proof. induction 1; simpl; constructor; assumption. Qed.

Lemma Forall2_nth_error {A B} (P : A -> B -> Prop) l1 l2 :
  Forall2 P l1 l2 ->
  forall j a b, nth_error l1 j = Some a -> nth_error l2 j = Some b -> P a b.
Proof.
  induction 1 as [|x y l l' Hxy _ IH]; intros j a b Ha Hb.
  - destruct j; discriminate Ha.
  - destruct j as [|j]; simpl in Ha, Hb.
    + injection Ha as <-. injection Hb as <-. exact Hxy.
    + exact (IH j a b Ha Hb).
Qed.

(** The response to the recognized call at position [i] is built from
    that call and from the clock reading of that iteration. *)
Lemma responses_from_positions env calls : forall base,
  Forall2 (fun r i =>
             exists fc, nth_error calls i = Some fc /\
                        isReportEmergency fc = true /\
                        r = mkResponse fc (dateNow env (base + i)))
          (responses_from env base calls) (recognized_positions calls).
Proof.
  induction calls as [|fc rest IH]; intros base.
  - constructor.
  - rewrite recognized_positions_cons. cbn [responses_from].
    assert (Htail : Forall2 (fun r i =>
               exists fc0, nth_error (fc :: rest) i = Some fc0 /\
                           isReportEmergency fc0 = true /\
                           r = mkResponse fc0 (dateNow env (base + i)))
              (responses_from env (S base) rest)
              (map S (recognized_positions rest))).
    { apply Forall2_map_right.
      eapply Forall2_impl; [|apply (IH (S base))].
      intros r i [fc0 [Hnth [Hrec Hr]]]. exists fc0.
      rewrite Nat.add_succ_r. repeat split; assumption. }
    destruct (isReportEmergency fc) eqn:Hfc; simpl; [|exact Htail].
    constructor; [|exact Htail].
    exists fc. rewrite Nat.add_0_r. repeat split. exact Hfc.
Qed.

(** C9.  The loop answers the recognized calls in order, and the
    response to the call at position [i] of the message carries as
    [ticketId] the decimal string of the clock reading taken at that
    iteration: read back as a numeral it is [Date.now()] at [i], and it is
    never the empty string.  Consequently two responses of one message
    carry the same [ticketId] exactly when their calls were handled at
    the same clock reading; under a clock that does not advance during the
    loop all of them do, so the identifier is not unique per call. *)
Theorem ticketId_is_clock_reading env calls s :
  exists responses l,
    forFunctionCalls env 0 calls [] s = Returned responses s l /\
    Forall2 (fun r i =>
               (exists fc, nth_error calls i = Some fc /\
                           isReportEmergency fc = true /\
                           fr_id r = fc_id fc) /\
               ticket_number (ticketId (fr_result r)) = Some (dateNow env i) /\
               ticketId (fr_result r) = toString (dateNow env i) /\
               ticketId (fr_result r) <> EmptyString)
            responses (recognized_positions calls) /\
    (forall j1 j2 r1 r2 i1 i2,
       nth_error responses j1 = Some r1 ->
       nth_error (recognized_positions calls) j1 = Some i1 ->
       nth_error responses j2 = Some r2 ->
       nth_error (recognized_positions calls) j2 = Some i2 ->
       (ticketId (fr_result r1) = ticketId (fr_result r2)
        <-> dateNow env i1 = dateNow env i2)) /\
    ((forall i j, dateNow env i = dateNow env j) ->
     forall r1 r2, In r1 responses -> In r2 responses ->
                   ticketId (fr_result r1) = ticketId (fr_result r2)).
Proof.
  exists (responses_from env 0 calls), (report_events (onReportSubmitted s) calls).
  split; [rewrite forFunctionCalls_run; reflexivity|].
  assert (Hall : Forall2 (fun r i =>
               (exists fc, nth_error calls i = Some fc /\
                           isReportEmergency fc = true /\
                           fr_id r = fc_id fc) /\
               ticket_number (ticketId (fr_result r)) = Some (dateNow env i) /\
               ticketId (fr_result r) = toString (dateNow env i) /\
               ticketId (fr_result r) <> EmptyString)
            (responses_from env 0 calls) (recognized_positions calls)).
  { eapply Forall2_impl; [|apply (responses_from_positions env calls 0)].
    simpl. intros r i [fc [Hnth [Hrec ->]]]. split.
    - exists fc. repeat split; assumption.
    - simpl. split; [apply toString_reads_back|].
      split; [reflexivity | apply toString_nonempty]. }
  split; [exact Hall|]. split.
  - intros j1 j2 r1 r2 i1 i2 Hr1 Hi1 Hr2 Hi2.
    destruct (Forall2_nth_error _ _ _ Hall _ _ _ Hr1 Hi1) as [_ [Hn1 [Ht1 _]]].
    destruct (Forall2_nth_error _ _ _ Hall _ _ _ Hr2 Hi2) as [_ [Hn2 [Ht2 _]]].
    split.
    + intros Heq. rewrite Heq, Hn2 in Hn1. injection Hn1 as Hn1.
      symmetry. exact Hn1.
    + intros Heq. rewrite Ht1, Ht2, Heq. reflexivity.
  - intros Hclock r1 r2 H1 H2.
    destruct (responses_from_tickets env calls 0 r1 H1) as [j1 [_ ->]].
    destruct (responses_from_tickets env calls 0 r2 H2) as [j2 [_ ->]].
    rewrite (Hclock j1 j2). reflexivity.
Qed.

Lemma ticketId_is_clock_reading_witness :
  forFunctionCalls (frozen_clock 0 1700000000000) 0
                   [flood_call; other_call; fire_call] [] live_service
  = Returned [mkResponse flood_call 1700000000000;
              mkResponse fire_call 1700000000000]
             live_service
             [ReportSubmitted (fc_args flood_call);
              ReportSubmitted (fc_args fire_call)] /\
  recognized_positions [flood_call; other_call; fire_call] = [0; 2]%nat /\
  fr_id (mkResponse flood_call 1700000000000)
  <> fr_id (mkResponse fire_call 1700000000000) /\
  ticketId (fr_result (mkResponse flood_call 1700000000000))
  = ticketId (fr_result (mkResponse fire_call 1700000000000)) /\
  ticketId (fr_result (mkResponse flood_call 1700000000000)) = "1700000000000".
Proof.
  split; [reflexivity|]. split; [reflexivity|]. split; [discriminate|].
  split; [|reflexivity].
  destruct (ticketId_is_clock_reading (frozen_clock 0 1700000000000)
              [flood_call; other_call; fire_call] live_service)
    as [responses [l [Hrun [_ [Hsame _]]]]].
  assert (Hresp : responses = [mkResponse flood_call 1700000000000;
                               mkResponse fire_call 1700000000000]).
  { assert (Hcomp : forFunctionCalls (frozen_clock 0 1700000000000) 0
                      [flood_call; other_call; fire_call] [] live_service
                    = Returned [mkResponse flood_call 1700000000000;
                                mkResponse fire_call 1700000000000]
                               live_service
                               [ReportSubmitted (fc_args flood_call);
                                ReportSubmitted (fc_args fire_call)])
      by reflexivity.
    rewrite Hcomp in Hrun. injection Hrun as <- _. reflexivity. }
  subst responses.
  apply (proj2 (Hsame 0%nat 1%nat _ _ 0%nat 2%nat
                  eq_refl eq_refl eq_refl eq_refl)).
  reflexivity.
Defined.

(** ** Playback scheduling *)

Lemma tool_log_silent env message s :
  scheduled_of (tool_log env message s) = [] /\
  errors_of (tool_log env message s) = [] /\
  statuses_of (tool_log env message s) = [] /\
  releases_of (tool_log env message s) = [].
Proof.
  unfold tool_log. destruct (toolCall message) as [tc|]; [|repeat split].
  destruct (report_events_silent (onReportSubmitted s) (functionCalls tc))
    as [_ [H1 [H2 [H3 H4]]]].
  autorewrite with log_split. rewrite H1, H2, H3, H4.
  destruct (responses_from env 0 (functionCalls tc));
    destruct (currentSession s); repeat split.
Qed.

(** One message whose chunk decodes: the chunk is started at
    [max(nextStartTime, currentTime)] and the cursor moves to the end of
    the chunk; no other field changes. *)
Lemma handleMessage_decoded utils env message s buffer :
  decoded_chunk utils s message = Some buffer ->
  exists log,
    handleMessage utils env message s =
    Returned tt
      (set_nextStartTime
         (Rmax (nextStartTime s) (currentTime env) + duration buffer) s) log /\
    scheduled_of log = [(Rmax (nextStartTime s) (currentTime env), buffer)] /\
    errors_of log = [].
Proof.
  intros Hd.
  destruct (handleAudio_decoded utils env message s buffer Hd) as [ctx [_ Hrun]].
  eexists. split.
  - unfold handleMessage. eapply bind_returned;
      [exact Hrun | apply handleToolCalls_run].
  - destruct (tool_log_silent env message
                (set_nextStartTime
                   (Rmax (nextStartTime s) (currentTime env) + duration buffer) s))
      as [H1 [H2 _]].
    autorewrite with log_split. rewrite H1, H2. split; reflexivity.
Qed.

(** One message whose chunk fails to decode. *)
Lemma handleMessage_failed utils env message s e :
  decode_failure utils s message = Some e ->
  exists log,
    handleMessage utils env message s =
    Returned tt
      (set_nextStartTime (Rmax (nextStartTime s) (currentTime env)) s) log /\
    scheduled_of log = [] /\
    errors_of log = [("Error decoding audio", e)] /\
    statuses_of log = [] /\
    releases_of log = [].
Proof.
  intros Hf. eexists. split.
  - unfold handleMessage. eapply bind_returned;
      [apply (handleAudio_failed utils env message s e Hf)
      | apply handleToolCalls_run].
  - destruct (tool_log_silent env message
                (set_nextStartTime (Rmax (nextStartTime s) (currentTime env)) s))
      as [H1 [H2 [H3 H4]]].
    autorewrite with log_split. rewrite H1, H2, H3, H4. repeat split.
Qed.

(** Any one message: the handler returns, only the cursor can change and
    it does not move back, and at most one buffer is started, never
    before the cursor's previous position nor after its new one. *)
Lemma handleMessage_run utils env message s :
  exists t log,
    handleMessage utils env message s = Returned tt (set_nextStartTime t s) log /\
    nextStartTime s <= t /\
    Forall (fun st => nextStartTime s <= st <= t) (map fst (scheduled_of log)) /\
    (List.length (scheduled_of log) <= 1)%nat.
Proof.
  destruct (decoded_chunk utils s message) as [buffer|] eqn:Hd.
  - destruct (handleMessage_decoded utils env message s buffer Hd)
      as [log [Hrun [Hsched _]]].
    eexists _, log. split; [exact Hrun|]. rewrite Hsched. simpl.
    pose proof (duration_nonneg buffer).
    pose proof (Rmax_l (nextStartTime s) (currentTime env)).
    split; [lra|]. split; [|lia].
    constructor; [lra | constructor].
  - destruct (decode_failure utils s message) as [e|] eqn:Hf.
    + destruct (handleMessage_failed utils env message s e Hf)
        as [log [Hrun [Hsched _]]].
      eexists _, log. split; [exact Hrun|]. rewrite Hsched. simpl.
      split; [apply Rmax_l|]. split; [constructor | lia].
    + exists (nextStartTime s), (tool_log env message s).
      rewrite set_nextStartTime_same.
      split.
      { unfold handleMessage.
        apply (bind_returned _ _ s tt s [] tt s (tool_log env message s));
          [apply (handleAudio_skipped utils env message s Hd Hf)
          | apply handleToolCalls_run]. }
      destruct (tool_log_silent env message s) as [-> _]. simpl.
      split; [lra|]. split; [constructor | lia].
Qed.

Lemma set_nextStartTime_twice t1 t2 s :
  set_nextStartTime t2 (set_nextStartTime t1 s) = set_nextStartTime t2 s.
Proof. reflexivity. Qed.

(** Any sequence of messages: the cursor does not move back and the
    start times, in scheduling order, never decrease. *)
Lemma handleMessages_run utils inputs : forall s,
  exists t log,
    handleMessages utils inputs s = Returned tt (set_nextStartTime t s) log /\
    nextStartTime s <= t /\
    Forall (fun st => nextStartTime s <= st) (map fst (scheduled_of log)) /\
    StronglySorted Rle (map fst (scheduled_of log)).
Proof.
  induction inputs as [|[env message] rest IH]; intros s.
  - exists (nextStartTime s), []. rewrite set_nextStartTime_same.
    split; [reflexivity|]. split; [lra|]. split; constructor.
  - destruct (handleMessage_run utils env message s)
      as [t1 [log1 [Hrun1 [Hle1 [Hall1 Hlen1]]]]].
    destruct (IH (set_nextStartTime t1 s)) as [t2 [log2 [Hrun2 [Hle2 [Hall2 Hsort2]]]]].
    simpl in Hle2, Hall2. rewrite set_nextStartTime_twice in Hrun2.
    exists t2, (log1 ++ log2). split.
    { simpl. eapply bind_returned; [exact Hrun1 | exact Hrun2]. }
    split; [lra|].
    autorewrite with log_split. rewrite map_app.
    assert (Hall2' : Forall (fun st => nextStartTime s <= st)
                            (map fst (scheduled_of log2))).
    { eapply Forall_impl; [|exact Hall2]. simpl. intros a Ha. lra. }
    split.
    + apply Forall_app. split; [|exact Hall2'].
      eapply Forall_impl; [|exact Hall1]. simpl. intros a Ha. lra.
    + destruct (scheduled_of log1) as [|[st b] [|x l]]; simpl in *;
        [exact Hsort2 | | lia].
      constructor; [exact Hsort2|].
      apply Forall_inv in Hall1. simpl in Hall1.
      eapply Forall_impl; [|exact Hall2]. simpl. intros a Ha. lra.
Qed.

(** On chunks that all decode, the handler schedules what the design's
    rule prescribes. *)
Lemma handleMessages_schedule utils chunks : forall s,
  Forall (fun c => decoded_chunk utils s (snd (fst c)) = Some (snd c)) chunks ->
  exists t log,
    handleMessages utils (map fst chunks) s
    = Returned tt (set_nextStartTime t s) log /\
    scheduled_of log = schedule_spec (nextStartTime s) (arrivals chunks).
Proof.
  induction chunks as [|[[env message] buffer] rest IH]; intros s Hall.
  - exists (nextStartTime s), []. rewrite set_nextStartTime_same.
    split; reflexivity.
  - inversion Hall as [|c l Hc Hrest]; subst. simpl in Hc.
    destruct (handleMessage_decoded utils env message s buffer Hc)
      as [log1 [Hrun1 [Hsched1 _]]].
    destruct (IH (set_nextStartTime
                    (Rmax (nextStartTime s) (currentTime env) + duration buffer) s))
      as [t2 [log2 [Hrun2 Hsched2]]].
    { eapply Forall_impl; [|exact Hrest]. intros c Hd. exact Hd. }
    rewrite set_nextStartTime_twice in Hrun2. simpl in Hsched2.
    exists t2, (log1 ++ log2). split.
    + simpl. eapply bind_returned; [exact Hrun1 | exact Hrun2].
    + autorewrite with log_split. rewrite Hsched1, Hsched2. reflexivity.
Qed.

Lemma schedule_spec_buffers chunks : forall next,
  map snd (schedule_spec next chunks) = map snd chunks.
Proof.
  induction chunks as [|[now b] rest IH]; intros next; simpl;
    [reflexivity | rewrite IH; reflexivity].
Qed.

(** In the rule's schedule, each chunk starts at the later of the end of
    the chunk before it and the clock reading at its own arrival. *)
Lemma schedule_spec_chain chunks : forall next i now2 b2' t1 b1 t2 b2,
  nth_error chunks (S i) = Some (now2, b2') ->
  nth_error (schedule_spec next chunks) i = Some (t1, b1) ->
  nth_error (schedule_spec next chunks) (S i) = Some (t2, b2) ->
  t2 = Rmax (t1 + duration b1) now2.
Proof.
  induction chunks as [|[now b] rest IH]; intros next i now2 b2' t1 b1 t2 b2 Hc H1 H2.
  - discriminate.
  - destruct i as [|i].
    + destruct rest as [|[now' b'] rest']; [discriminate|].
      simpl in Hc, H1, H2.
      injection Hc as -> _. injection H1 as <- <-. injection H2 as <- _.
      reflexivity.
    + simpl in Hc, H1, H2. eapply IH; eassumption.
Qed.

(** C3.  Handling inbound messages in arrival order never moves the
    [nextStartTime] cursor back, and the start times passed to
    [source.start], in the order of the calls, never decrease.  When
    the messages are audio chunks that all decode, each is scheduled once
    and in arrival order, and a chunk that arrives while the output clock
    has not passed the cursor starts exactly where the chunk before it
    ends: [start(i+1) = start(i) + d(i)]. *)
Theorem playback_monotone utils s :
  (forall inputs,
     exists s' log,
       handleMessages utils inputs s = Returned tt s' log /\
       nextStartTime s <= nextStartTime s' /\
       StronglySorted Rle (map fst (scheduled_of log))) /\
  (forall chunks,
     Forall (fun c => decoded_chunk utils s (snd (fst c)) = Some (snd c)) chunks ->
     exists s' log,
       handleMessages utils (map fst chunks) s = Returned tt s' log /\
       map snd (scheduled_of log) = map snd chunks /\
       forall i env message buffer t1 b1 t2 b2,
         nth_error chunks (S i) = Some (env, message, buffer) ->
         nth_error (scheduled_of log) i = Some (t1, b1) ->
         nth_error (scheduled_of log) (S i) = Some (t2, b2) ->
         t1 <= t2 /\
         (currentTime env <= t1 + duration b1 -> t2 = t1 + duration b1)).
Proof.
  split.
  - intros inputs.
    destruct (handleMessages_run utils inputs s)
      as [t [log [Hrun [Hle [_ Hsorted]]]]].
    exists (set_nextStartTime t s), log. repeat split; assumption.
  - intros chunks Hall.
    destruct (handleMessages_schedule utils chunks s Hall)
      as [t [log [Hrun Hsched]]].
    exists (set_nextStartTime t s), log. split; [exact Hrun|].
    rewrite Hsched. split.
    + rewrite schedule_spec_buffers. unfold arrivals.
      rewrite map_map. reflexivity.
    + intros i env message buffer t1 b1 t2 b2 Hc H1 H2.
      assert (Ht2 : t2 = Rmax (t1 + duration b1) (currentTime env)).
      { eapply (schedule_spec_chain (arrivals chunks)); [|exact H1|exact H2].
        unfold arrivals. rewrite nth_error_map, Hc. reflexivity. }
      subst t2. split.
      * pose proof (duration_nonneg b1).
        pose proof (Rmax_l (t1 + duration b1) (currentTime env)). lra.
      * intros Hnow. apply Rmax_left. exact Hnow.
Qed.

Lemma playback_monotone_witness :
  Forall (fun c => decoded_chunk sample_utils live_service (snd (fst c))
                   = Some (snd c)) two_chunks /\
  exists t1 t2,
    scheduled_of (log_of (handleMessages sample_utils (map fst two_chunks)
                                         live_service))
    = [(t1, mkAudioBuffer 2 24000); (t2, mkAudioBuffer 3 24000)] /\
    t1 <= t2 /\
    t2 = t1 + duration (mkAudioBuffer 2 24000).
Proof.
  assert (Hall : Forall (fun c => decoded_chunk sample_utils live_service
                                    (snd (fst c)) = Some (snd c)) two_chunks).
  { repeat constructor. }
  split; [exact Hall|].
  destruct (playback_monotone sample_utils live_service) as [_ Hchunks].
  destruct (Hchunks two_chunks Hall) as [s' [log [Hrun [_ Hchain]]]].
  rewrite Hrun. simpl log_of.
  assert (Hcomp :
    handleMessages sample_utils (map fst two_chunks) live_service
    = Returned tt
        (set_nextStartTime
           (Rmax (Rmax 0 0 + duration (mkAudioBuffer 2 24000)) 0
            + duration (mkAudioBuffer 3 24000)) live_service)
        [SourceStart (AudioContextRef 2) (mkAudioBuffer 2 24000) (Rmax 0 0);
         SourceStart (AudioContextRef 2) (mkAudioBuffer 3 24000)
                     (Rmax (Rmax 0 0 + duration (mkAudioBuffer 2 24000)) 0)])
    by reflexivity.
  rewrite Hcomp in Hrun. injection Hrun as <- <-.
  exists (Rmax 0 0), (Rmax (Rmax 0 0 + duration (mkAudioBuffer 2 24000)) 0).
  split; [reflexivity|].
  destruct (Hchain 0%nat (frozen_clock 0 0) (audio_message "abcdef")
              (mkAudioBuffer 3 24000)
              (Rmax 0 0) (mkAudioBuffer 2 24000)
              (Rmax (Rmax 0 0 + duration (mkAudioBuffer 2 24000)) 0)
              (mkAudioBuffer 3 24000) eq_refl eq_refl eq_refl)
    as [Hle Hback].
  split; [exact Hle|]. apply Hback. simpl.
  pose proof (duration_nonneg (mkAudioBuffer 2 24000)).
  pose proof (Rmax_l 0 0). lra.
Defined.

(** C4.  When the output clock has passed the cursor at the time a chunk
    is handled, the chunk is started at the clock reading, not at the
    stale cursor, and the cursor resumes from there. *)
Theorem stall_recovery utils env message s buffer :
  decoded_chunk utils s message = Some buffer ->
  nextStartTime s < currentTime env ->
  exists s' log,
    handleMessage utils env message s = Returned tt s' log /\
    scheduled_of log = [(currentTime env, buffer)] /\
    nextStartTime s' = currentTime env + duration buffer.
Proof.
  intros Hd Hlate.
  destruct (handleMessage_decoded utils env message s buffer Hd)
    as [log [Hrun [Hsched _]]].
  assert (Hmax : Rmax (nextStartTime s) (currentTime env) = currentTime env)
    by (apply Rmax_right; lra).
  rewrite Hmax in Hrun, Hsched.
  eexists _, log. split; [exact Hrun|]. split; [exact Hsched | reflexivity].
Qed.

Lemma stall_recovery_witness :
  decoded_chunk sample_utils live_service (audio_message "abcd")
    = Some (mkAudioBuffer 2 24000) /\
  nextStartTime live_service < currentTime (frozen_clock 5 0) /\
  exists s' log,
    handleMessage sample_utils (frozen_clock 5 0) (audio_message "abcd")
                  live_service
    = Returned tt s' log /\
    scheduled_of log = [(5, mkAudioBuffer 2 24000)] /\
    nextStartTime s' = 5 + duration (mkAudioBuffer 2 24000).
Proof.
  split; [reflexivity|].
  assert (Hlate : nextStartTime live_service < currentTime (frozen_clock 5 0))
    by (simpl; lra).
  split; [exact Hlate|].
  exact (stall_recovery sample_utils (frozen_clock 5 0) (audio_message "abcd")
           live_service (mkAudioBuffer 2 24000) eq_refl Hlate).
Defined.

(** ** Decode failures *)

(** C7.  A chunk that fails to decode is dealt with inside the handler:
    the handler returns normally, the chunk is not scheduled, one
    diagnostic is logged, nothing is torn down and no status is reported
    (the session handle and the output context are kept), and the next
    chunk that decodes is scheduled as usual. *)
Theorem decode_failure_recovered utils env1 failing env2 following s e buffer :
  decode_failure utils s failing = Some e ->
  decoded_chunk utils s following = Some buffer ->
  exists s1 log1 s2 log2,
    handleMessage utils env1 failing s = Returned tt s1 log1 /\
    scheduled_of log1 = [] /\
    errors_of log1 = [("Error decoding audio", e)] /\
    statuses_of log1 = [] /\
    releases_of log1 = [] /\
    currentSession s1 = currentSession s /\
    outputAudioContext s1 = outputAudioContext s /\
    handleMessage utils env2 following s1 = Returned tt s2 log2 /\
    scheduled_of log2 = [(Rmax (nextStartTime s1) (currentTime env2), buffer)].
Proof.
  intros Hf Hd.
  destruct (handleMessage_failed utils env1 failing s e Hf)
    as [log1 [Hrun1 [Hs1 [He1 [Hst1 Hrel1]]]]].
  set (s1 := set_nextStartTime (Rmax (nextStartTime s) (currentTime env1)) s) in *.
  destruct (handleMessage_decoded utils env2 following s1 buffer Hd)
    as [log2 [Hrun2 [Hs2 _]]].
  eexists s1, log1, _, log2.
  repeat split; try eassumption.
Qed.

Lemma decode_failure_recovered_witness :
  decode_failure sample_utils live_service (audio_message "abc")
    = Some (DecodeError "odd byte length") /\
  decoded_chunk sample_utils live_service (audio_message "abcd")
    = Some (mkAudioBuffer 2 24000) /\
  exists s1 log1 s2 log2,
    handleMessage sample_utils (frozen_clock 1 0) (audio_message "abc")
                  live_service
    = Returned tt s1 log1 /\
    scheduled_of log1 = [] /\
    errors_of log1 = [("Error decoding audio", DecodeError "odd byte length")] /\
    statuses_of log1 = [] /\
    releases_of log1 = [] /\
    currentSession s1 = currentSession live_service /\
    outputAudioContext s1 = outputAudioContext live_service /\
    handleMessage sample_utils (frozen_clock 2 0) (audio_message "abcd") s1
    = Returned tt s2 log2 /\
    scheduled_of log2
    = [(Rmax (nextStartTime s1) (currentTime (frozen_clock 2 0)),
        mkAudioBuffer 2 24000)].
Proof.
  split; [reflexivity|]. split; [reflexivity|].
  exact (decode_failure_recovered sample_utils (frozen_clock 1 0)
           (audio_message "abc") (frozen_clock 2 0) (audio_message "abcd")
           live_service (DecodeError "odd byte length") (mkAudioBuffer 2 24000)
           eq_refl eq_refl).
Defined.

(** C10.  On the path where the chunk fails to decode, the cursor is
    set to [max(nextStartTime, currentTime)] and is not advanced by any
    duration; every other field of the service is left as it was. *)
Theorem failed_decode_frame utils env message s e :
  decode_failure utils s message = Some e ->
  exists s' log,
    handleMessage utils env message s = Returned tt s' log /\
    nextStartTime s' = Rmax (nextStartTime s) (currentTime env) /\
    currentSession s' = currentSession s /\
    sessionPromise s' = sessionPromise s /\
    inputAudioContext s' = inputAudioContext s /\
    outputAudioContext s' = outputAudioContext s /\
    stream s' = stream s /\
    processor s' = processor s /\
    source s' = source s /\
    onReportSubmitted s' = onReportSubmitted s /\
    onAudioLevel s' = onAudioLevel s /\
    onStatusChange s' = onStatusChange s.
Proof.
  intros Hf.
  destruct (handleMessage_failed utils env message s e Hf) as [log [Hrun _]].
  eexists _, log. split; [exact Hrun|]. repeat split.
Qed.

Lemma failed_decode_frame_witness :
  decode_failure sample_utils live_service (audio_message "abc")
    = Some (DecodeError "odd byte length") /\
  exists s' log,
    handleMessage sample_utils (frozen_clock 1 0) (audio_message "abc")
                  live_service
    = Returned tt s' log /\
    nextStartTime s' = Rmax (nextStartTime live_service)
                            (currentTime (frozen_clock 1 0)) /\
    currentSession s' = currentSession live_service /\
    sessionPromise s' = sessionPromise live_service /\
    inputAudioContext s' = inputAudioContext live_service /\
    outputAudioContext s' = outputAudioContext live_service /\
    stream s' = stream live_service /\
    processor s' = processor live_service /\
    source s' = source live_service /\
    onReportSubmitted s' = onReportSubmitted live_service /\
    onAudioLevel s' = onAudioLevel live_service /\
    onStatusChange s' = onStatusChange live_service.
Proof.
  split; [reflexivity|].
  exact (failed_decode_frame sample_utils (frozen_clock 1 0)
           (audio_message "abc") live_service (DecodeError "odd byte length")
           eq_refl).
Defined.

(** ** Capture *)

(** What one run of the capture callback does. *)
Lemma onaudioprocess_run utils frame s :
  onaudioprocess utils frame s =
  Returned tt s
    ((if onAudioLevel s then [AudioLevel (rms frame)] else []) ++
     match currentSession s with
     | Some sess =>
         [SendRealtimeInput sess audio_mime
            (arrayBufferToBase64 utils
               (uint8_view (float32ToInt16PCM utils frame)))]
     | None => []
     end).
Proof.
  unfold onaudioprocess, bind, this, call_optional, emit, ret.
  destruct (onAudioLevel s); destruct (currentSession s); reflexivity.
Qed.

Lemma realtime_sends_of_app l1 l2 :
  realtime_sends_of (l1 ++ l2) = realtime_sends_of l1 ++ realtime_sends_of l2.
Proof. apply flat_map_app. Qed.

Lemma levels_of_app l1 l2 : levels_of (l1 ++ l2) = levels_of l1 ++ levels_of l2.
Proof. apply flat_map_app. Qed.

(** C6.  A frame captured while no session handle is held is dropped:
    the callback returns normally, nothing is sent to the transport and
    no field changes; the only thing it may do is report the level. *)
Theorem frame_dropped_without_session utils frame s :
  currentSession s = None ->
  exists log,
    onaudioprocess utils frame s = Returned tt s log /\
    realtime_sends_of log = [] /\
    errors_of log = [] /\
    log = if onAudioLevel s then [AudioLevel (rms frame)] else [].
Proof.
  intros Hnone. eexists. split; [apply onaudioprocess_run|].
  rewrite Hnone, app_nil_r.
  destruct (onAudioLevel s); repeat split.
Qed.

Lemma frame_dropped_without_session_witness :
  currentSession host_service = None /\
  exists log,
    onaudioprocess sample_utils [1; 0] host_service
    = Returned tt host_service log /\
    realtime_sends_of log = [] /\
    errors_of log = [] /\
    log = if onAudioLevel host_service then [AudioLevel (rms [1; 0])] else [].
Proof.
  split; [reflexivity|].
  exact (frame_dropped_without_session sample_utils [1; 0] host_service eq_refl).
Defined.

(** The loop's running sum is the sum of the squares. *)
Lemma sum_squares_fold frame : forall acc,
  fold_left (fun sum x => sum + x * x) frame acc
  = acc + fold_right Rplus 0 (map (fun x => x * x) frame).
Proof.
  induction frame as [|x rest IH]; intros acc; simpl.
  - lra.
  - rewrite IH. lra.
Qed.

Lemma rms_is_rms_spec frame : rms frame = rms_spec frame.
Proof.
  unfold rms, rms_spec, sum_squares. rewrite sum_squares_fold.
  rewrite Rplus_0_l. reflexivity.
Qed.

Lemma squares_bounded frame :
  Forall (fun x => -1 <= x <= 1) frame ->
  0 <= fold_right Rplus 0 (map (fun x => x * x) frame)
    <= INR (List.length frame).
Proof.
  induction 1 as [|x rest Hx _ IH].
  - simpl. lra.
  - cbn [map fold_right List.length]. rewrite S_INR.
    assert (0 <= x * x <= 1) by nra. lra.
Qed.

Lemma rms_spec_range frame :
  frame <> [] ->
  Forall (fun x => -1 <= x <= 1) frame ->
  0 <= rms_spec frame <= 1.
Proof.
  intros Hne Hall. unfold rms_spec. split; [apply sqrt_pos|].
  rewrite <- sqrt_1. apply sqrt_le_1_alt.
  pose proof (squares_bounded frame Hall) as [_ Hle].
  assert (Hpos : 0 < INR (List.length frame)).
  { apply lt_0_INR. destruct frame; [contradiction | simpl; lia]. }
  apply (Rmult_le_reg_r (INR (List.length frame))); [exact Hpos|].
  unfold Rdiv. rewrite Rmult_assoc, Rinv_l; lra.
Qed.

Lemma sum_squares_silent n : sum_squares (silent_frame n) = 0.
Proof.
  unfold sum_squares, silent_frame. rewrite sum_squares_fold.
  induction n as [|n IH]; simpl; [lra|].
  rewrite Rplus_0_l in IH. rewrite IH. lra.
Qed.

Lemma rms_silent n : rms (silent_frame n) = 0.
Proof.
  unfold rms. rewrite sum_squares_silent.
  unfold Rdiv. rewrite Rmult_0_l. apply sqrt_0.
Qed.

(** C8.  With a level callback installed, every captured frame produces
    exactly one level report, whose value is the root mean square of the
    frame's samples (frames are never empty: the processor is created
    with a buffer of 4096 samples); for a frame of samples in [-1,1] that
    value lies in [0,1].  A silent frame of 4096 samples produces exactly one report,
    of level 0, and, when a session handle is held, exactly one outbound
    audio message, tagged [audio/pcm;rate=16000]. *)
Theorem capture_level_and_send utils s :
  onAudioLevel s = true ->
  (forall frame,
     frame <> [] ->
     exists log,
       onaudioprocess utils frame s = Returned tt s log /\
       levels_of log = [rms_spec frame] /\
       (Forall (fun x => -1 <= x <= 1) frame -> 0 <= rms_spec frame <= 1)) /\
  (exists log,
     onaudioprocess utils (silent_frame 4096) s = Returned tt s log /\
     levels_of log = [0] /\
     forall sess, currentSession s = Some sess ->
       exists data,
         realtime_sends_of log = [(sess, "audio/pcm;rate=16000", data)]).
Proof.
  intros Hcb.
  assert (Hrun : forall frame,
    exists log,
      onaudioprocess utils frame s = Returned tt s log /\
      levels_of log = [rms frame] /\
      forall sess, currentSession s = Some sess ->
        exists data,
          realtime_sends_of log = [(sess, "audio/pcm;rate=16000", data)]).
  { intros frame. eexists. split; [apply onaudioprocess_run|].
    rewrite Hcb, levels_of_app, realtime_sends_of_app.
    split.
    - destruct (currentSession s); reflexivity.
    - intros sess ->. eexists. reflexivity. }
  split.
  - intros frame Hne. destruct (Hrun frame) as [log [Hlog [Hlev _]]].
    exists log. split; [exact Hlog|]. split.
    + rewrite Hlev, rms_is_rms_spec. reflexivity.
    + apply rms_spec_range. exact Hne.
  - destruct (Hrun (silent_frame 4096)) as [log [Hlog [Hlev Hsend]]].
    exists log. split; [exact Hlog|]. split; [|exact Hsend].
    rewrite Hlev, rms_silent. reflexivity.
Qed.

Lemma capture_level_and_send_witness :
  onAudioLevel live_service = true /\
  (exists log,
     onaudioprocess sample_utils [1 / 2; -1] live_service
     = Returned tt live_service log /\
     levels_of log = [rms_spec [1 / 2; -1]] /\
     0 <= rms_spec [1 / 2; -1] <= 1) /\
  (exists log data,
     onaudioprocess sample_utils (silent_frame 4096) live_service
     = Returned tt live_service log /\
     levels_of log = [0] /\
     realtime_sends_of log = [(SessionRef 1, "audio/pcm;rate=16000", data)]).
Proof.
  split; [reflexivity|].
  destruct (capture_level_and_send sample_utils live_service eq_refl)
    as [Hframe Hsilent].
  split.
  - destruct (Hframe [1 / 2; -1]) as [log [Hrun [Hlev Hrange]]];
      [discriminate|].
    exists log. split; [exact Hrun|]. split; [exact Hlev|].
    apply Hrange.
    constructor; [lra|]. constructor; [lra|]. constructor.
  - destruct Hsilent as [log [Hrun [Hlev Hsend]]].
    destruct (Hsend (SessionRef 1) eq_refl) as [data Hdata].
    exists log, data. split; [exact Hrun|]. split; [exact Hlev | exact Hdata].
Defined.

(** ** Teardown *)

Lemma stop_run s :
  stop s = Returned tt (stopped s)
                    (release_log s ++ status_log s "Disconnected").
Proof.
  destruct s as [ic oc st pr src nst sp cs cb1 cb2 cb3].
  destruct ic, oc, st, pr, src, cb3; reflexivity.
Qed.

Lemma notifyStatus_run text s :
  notifyStatus text s = Returned tt s (status_log s text).
Proof.
  unfold notifyStatus, status_log, bind, this, call_optional. simpl.
  destruct (onStatusChange s); reflexivity.
Qed.

Lemma statuses_of_release_log s : statuses_of (release_log s) = [].
Proof.
  unfold release_log.
  destruct (processor s), (source s), (stream s), (inputAudioContext s),
    (outputAudioContext s); reflexivity.
Qed.

(** C2, as the code has it.  Every call of [stop] reports
    ["Disconnected"] once, whatever the state: of two calls in a row the
    second returns normally, releases nothing and changes no field, but
    reports again; and the transport's close handler, which reports and
    then calls [stop], reports twice. *)
Theorem stop_reports_on_every_call s :
  onStatusChange s = true ->
  exists s1 log1 log3,
    stop s = Returned tt s1 log1 /\
    count_status "Disconnected" log1 = 1%nat /\
    stop s1 = Returned tt s1 [StatusChange "Disconnected"] /\
    count_status "Disconnected" (log_of ((stop;; stop) s)) = 2%nat /\
    onclose s = Returned tt s1 log3 /\
    count_status "Disconnected" log3 = 2%nat.
Proof.
  intros Hcb.
  assert (Hcount : count_status "Disconnected"
                     (release_log s ++ status_log s "Disconnected") = 1%nat).
  { unfold count_status. rewrite statuses_of_app, statuses_of_release_log.
    unfold status_log. rewrite Hcb. reflexivity. }
  assert (Hagain : stop (stopped s)
                   = Returned tt (stopped s) [StatusChange "Disconnected"]).
  { rewrite stop_run. unfold release_log, status_log. simpl.
    rewrite Hcb. reflexivity. }
  exists (stopped s), (release_log s ++ status_log s "Disconnected"),
         (status_log s "Disconnected"
            ++ release_log s ++ status_log s "Disconnected").
  split; [apply stop_run|]. split; [exact Hcount|]. split; [exact Hagain|].
  split.
  { unfold bind. rewrite stop_run, Hagain. simpl log_of.
    unfold count_status in *.
    rewrite statuses_of_app, filter_app, length_app, Hcount. reflexivity. }
  split.
  { unfold onclose. eapply bind_returned;
      [apply notifyStatus_run | apply stop_run]. }
  unfold count_status in *.
  rewrite statuses_of_app, filter_app, length_app, Hcount.
  unfold status_log. rewrite Hcb. reflexivity.
Qed.

Lemma stop_reports_on_every_call_witness :
  onStatusChange live_service = true /\
  exists s1 log1 log3,
    stop live_service = Returned tt s1 log1 /\
    count_status "Disconnected" log1 = 1%nat /\
    stop s1 = Returned tt s1 [StatusChange "Disconnected"] /\
    count_status "Disconnected" (log_of ((stop;; stop) live_service)) = 2%nat /\
    onclose live_service = Returned tt s1 log3 /\
    count_status "Disconnected" log3 = 2%nat.
Proof.
  split; [reflexivity|].
  exact (stop_reports_on_every_call live_service eq_refl).
Defined.

(** C2 as stated fails: from the Live state, two calls of [stop] in a row
    report ["Disconnected"] twice, not once, and so does one remote
    close. *)
Lemma stop_twice_reports_twice :
  count_status "Disconnected" (log_of ((stop;; stop) live_service)) <> 1%nat /\
  count_status "Disconnected" (log_of (onclose live_service)) <> 1%nat.
Proof. split; simpl; discriminate. Qed.

(** ** Connecting *)

(** C5, as the code has it.  [connect] does not look at the state it is
    called in: whenever the microphone is granted it installs two new
    audio contexts and the new stream over the previous references,
    releases nothing, asks the transport for a new session, and, once
    that session's promise resolves, makes it the current session. *)
Theorem connect_is_unguarded env s st sess :
  getUserMedia env = inr st ->
  liveConnect env = inr sess ->
  exists s1 log s2,
    connect env s = Returned (inr sess) s1 log /\
    connects_of log = [inr sess] /\
    releases_of log = [] /\
    inputAudioContext s1 = Some (newInputContext env) /\
    outputAudioContext s1 = Some (newOutputContext env) /\
    stream s1 = Some st /\
    sessionPromise s1 = Some (inr sess) /\
    currentSession s1 = currentSession s /\
    connect_resumed (inr sess) s1 = Returned tt s2 [] /\
    currentSession s2 = Some sess.
Proof.
  intros Hmic Hlive.
  destruct s as [ic oc st0 pr src nst sp cs cb1 cb2 cb3].
  destruct env as [nic isusp noc osusp mic live]. simpl in Hmic, Hlive.
  subst mic live.
  destruct cb3, isusp, osusp; eexists _, _, _; repeat split.
Qed.

Lemma connect_is_unguarded_witness :
  getUserMedia second_connect = inr (MediaStreamRef 2) /\
  liveConnect second_connect = inr (SessionRef 2) /\
  currentSession live_service = Some (SessionRef 1) /\
  exists s1 log s2,
    connect second_connect live_service = Returned (inr (SessionRef 2)) s1 log /\
    connects_of log = [inr (SessionRef 2)] /\
    releases_of log = [] /\
    inputAudioContext s1 = Some (AudioContextRef 3) /\
    outputAudioContext s1 = Some (AudioContextRef 4) /\
    stream s1 = Some (MediaStreamRef 2) /\
    sessionPromise s1 = Some (inr (SessionRef 2)) /\
    currentSession s1 = Some (SessionRef 1) /\
    connect_resumed (inr (SessionRef 2)) s1 = Returned tt s2 [] /\
    currentSession s2 = Some (SessionRef 2).
Proof.
  split; [reflexivity|]. split; [reflexivity|]. split; [reflexivity|].
  exact (connect_is_unguarded second_connect live_service
           (MediaStreamRef 2) (SessionRef 2) eq_refl eq_refl).
Defined.

(** C5 as stated fails: a [connect] issued in the Live state is neither
    rejected nor ignored; it opens a second transport session. *)
Lemma second_connect_opens_second_session :
  currentSession live_service = Some (SessionRef 1) /\
  ~ connect_rejected_or_ignored second_connect live_service.
Proof.
  split; [reflexivity|].
  unfold connect_rejected_or_ignored. simpl. intros [_ Hnone]. discriminate.
Qed.

(** * Further properties of the service *)

(** ** Session start and teardown *)

Lemma connect_run env s st :
  getUserMedia env = inr st ->
  connect env s =
  Returned (liveConnect env)
    (set_sessionPromise (Some (liveConnect env))
       (set_stream (Some st)
          (set_outputAudioContext (Some (newOutputContext env))
             (set_inputAudioContext (Some (newInputContext env)) s))))
    (status_log s "Initializing Audio..." ++ resume_log env ++
     status_log s "Requesting Mic..." ++ [GetUserMedia] ++
     status_log s "Connecting to HQ..." ++ [LiveConnect (liveConnect env)]).
Proof.
  destruct s as [ic oc st0 pr src nst sp cs cb1 cb2 cb3].
  destruct env as [nic isusp noc osusp mic live]. simpl. intros ->.
  destruct cb3, isusp, osusp; reflexivity.
Qed.

Lemma handleOpen_run oenv s ctx st :
  inputAudioContext s = Some ctx ->
  stream s = Some st ->
  handleOpen oenv s =
  Returned tt
    (set_processor (Some (newProcessor oenv))
       (set_source (Some (newSource oenv)) s))
    (status_log s "Live" ++
     [CreateMediaStreamSource ctx (newSource oenv);
      CreateScriptProcessor ctx (newProcessor oenv) 4096;
      SetOnAudioProcess (newProcessor oenv) true;
      ConnectSourceToProcessor (newSource oenv) (newProcessor oenv);
      ConnectProcessorToDestination (newProcessor oenv) ctx]).
Proof.
  destruct s as [ic oc st0 pr src nst sp cs cb1 cb2 cb3]. simpl.
  intros -> ->. destruct cb3; reflexivity.
Qed.

(** A session from start to stop.  When the microphone is granted and
    the transport session opens, [connect], [onopen] and the resumption of
    [connect] report the four statuses in order, open one transport
    session and leave the service holding the new contexts, stream, nodes
    and session; [stop] then releases each of them once (processor,
    source, stream tracks, input context, output context, in this order),
    reports ["Disconnected"] and leaves no resource field set. *)
Theorem session_lifecycle env oenv s st sess :
  onStatusChange s = true ->
  getUserMedia env = inr st ->
  liveConnect env = inr sess ->
  exists s_live log_up s_end log_down,
    start_session env oenv s = Returned tt s_live log_up /\
    statuses_of log_up = ["Initializing Audio..."; "Requesting Mic...";
                          "Connecting to HQ..."; "Live"] /\
    connects_of log_up = [inr sess] /\
    releases_of log_up = [] /\
    inputAudioContext s_live = Some (newInputContext env) /\
    outputAudioContext s_live = Some (newOutputContext env) /\
    stream s_live = Some st /\
    source s_live = Some (newSource oenv) /\
    processor s_live = Some (newProcessor oenv) /\
    currentSession s_live = Some sess /\
    stop s_live = Returned tt s_end log_down /\
    log_down = [ProcessorDisconnect (newProcessor oenv);
                SetOnAudioProcess (newProcessor oenv) false;
                SourceDisconnect (newSource oenv);
                TracksStop st;
                ContextClose (newInputContext env);
                ContextClose (newOutputContext env);
                StatusChange "Disconnected"] /\
    inputAudioContext s_end = None /\ outputAudioContext s_end = None /\
    stream s_end = None /\ source s_end = None /\ processor s_end = None /\
    currentSession s_end = None.
Proof.
  destruct s as [ic oc st0 pr src nst sp cs cb1 cb2 cb3].
  destruct env as [nic isusp noc osusp mic live].
  destruct oenv as [nsrc nproc]. simpl. intros -> -> ->.
  destruct isusp, osusp;
    (eexists (mkService (Some nic) (Some noc) (Some st) (Some nproc)
                        (Some nsrc) nst (Some (inr sess)) (Some sess)
                        cb1 cb2 true), _, _, _;
     split; [reflexivity|];
     do 9 (split; [reflexivity|]);
     split; [apply stop_run|];
     repeat split).
Qed.

Lemma session_lifecycle_witness :
  onStatusChange host_service = true /\
  getUserMedia first_connect = inr (MediaStreamRef 1) /\
  liveConnect first_connect = inr (SessionRef 1) /\
  start_session first_connect first_open host_service
  = Returned tt live_service
      [StatusChange "Initializing Audio..."; StatusChange "Requesting Mic...";
       GetUserMedia; StatusChange "Connecting to HQ...";
       LiveConnect (inr (SessionRef 1)); StatusChange "Live";
       CreateMediaStreamSource (AudioContextRef 1) (MediaStreamSourceRef 1);
       CreateScriptProcessor (AudioContextRef 1) (ScriptProcessorRef 1) 4096;
       SetOnAudioProcess (ScriptProcessorRef 1) true;
       ConnectSourceToProcessor (MediaStreamSourceRef 1) (ScriptProcessorRef 1);
       ConnectProcessorToDestination (ScriptProcessorRef 1) (AudioContextRef 1)] /\
  log_of (stop live_service)
  = [ProcessorDisconnect (ScriptProcessorRef 1);
     SetOnAudioProcess (ScriptProcessorRef 1) false;
     SourceDisconnect (MediaStreamSourceRef 1);
     TracksStop (MediaStreamRef 1);
     ContextClose (AudioContextRef 1);
     ContextClose (AudioContextRef 2);
     StatusChange "Disconnected"].
Proof.
  split; [reflexivity|]. split; [reflexivity|]. split; [reflexivity|].
  split; [reflexivity|].
  destruct (session_lifecycle first_connect first_open host_service
              (MediaStreamRef 1) (SessionRef 1) eq_refl eq_refl eq_refl)
    as [s_live [log_up [s_end [log_down [Hup [_ [_ [_ [_ [_ [_ [_ [_ [_ [Hdown [Hlog _]]]]]]]]]]]]]]]].
  assert (Hlive : s_live = live_service).
  { assert (Hcomp : start_session first_connect first_open host_service
                    = Returned tt live_service
                        (log_of (start_session first_connect first_open
                                               host_service)))
      by reflexivity.
    rewrite Hcomp in Hup. injection Hup as <- _. reflexivity. }
  subst s_live. rewrite Hdown. exact Hlog.
Defined.

Lemma In_option_list {A B} (o : option A) (f : A -> list B) (e : B) :
  In e (match o with Some x => f x | None => [] end)
  <-> exists x, o = Some x /\ In e (f x).
Proof.
  destruct o as [a|]; simpl; split.
  - intros H. exists a. split; [reflexivity | exact H].
  - intros [x [Hx H]]. injection Hx as ->. exact H.
  - contradiction.
  - intros [x [Hx _]]. discriminate Hx.
Qed.

Ltac crush_in :=
  repeat match goal with
         | H : _ \/ _ |- _ => destruct H
         | H : exists _, _ |- _ => destruct H
         | H : _ /\ _ |- _ => destruct H
         | H : False |- _ => destruct H
         | H : In _ (if ?b then _ else _) |- _ => destruct b
         | H : In _ _ |- _ => progress simpl in H
         | H : @eq Event _ _ |- _ => first [discriminate H | injection H as H; subst]
         end.

(** [stop] from any state: it returns normally; it releases a resource
    exactly when that resource is held (so nothing at all when none was
    ever acquired) and then forgets it; it clears the session handle
    without telling the transport anything; and it keeps the playback
    cursor, the session promise and the host callbacks. *)
Theorem stop_releases_what_is_held s :
  exists s' log,
    stop s = Returned tt s' log /\
    (forall p, processor s = Some p <-> In (ProcessorDisconnect p) log) /\
    (forall p, processor s = Some p <-> In (SetOnAudioProcess p false) log) /\
    (forall src, source s = Some src <-> In (SourceDisconnect src) log) /\
    (forall st, stream s = Some st <-> In (TracksStop st) log) /\
    (forall ctx, (inputAudioContext s = Some ctx \/ outputAudioContext s = Some ctx)
                 <-> In (ContextClose ctx) log) /\
    processor s' = None /\ source s' = None /\ stream s' = None /\
    inputAudioContext s' = None /\ outputAudioContext s' = None /\
    currentSession s' = None /\
    nextStartTime s' = nextStartTime s /\
    sessionPromise s' = sessionPromise s /\
    onReportSubmitted s' = onReportSubmitted s /\
    onAudioLevel s' = onAudioLevel s /\
    onStatusChange s' = onStatusChange s /\
    realtime_sends_of log = [] /\ tool_sends_of log = [] /\
    connects_of log = [].
Proof.
  destruct s as [ic oc st pr src nst sp cs cb1 cb2 cb3].
  eexists _, _. split; [apply stop_run|].
  unfold release_log, status_log, stopped.
  cbn [processor source stream inputAudioContext outputAudioContext
       currentSession nextStartTime sessionPromise onReportSubmitted
       onAudioLevel onStatusChange].
  split.
  { intros p. rewrite !in_app_iff, !In_option_list. split.
    - intros ->. left. left. exists p. simpl. auto.
    - intros H. crush_in; auto. }
  split.
  { intros p. rewrite !in_app_iff, !In_option_list. split.
    - intros ->. left. left. exists p. simpl. auto.
    - intros H. crush_in; auto. }
  split.
  { intros x. rewrite !in_app_iff, !In_option_list. split.
    - intros ->. left. right. left. exists x. simpl. auto.
    - intros H. crush_in; auto. }
  split.
  { intros x. rewrite !in_app_iff, !In_option_list. split.
    - intros ->. left. right. right. left. exists x. simpl. auto.
    - intros H. crush_in; auto. }
  split.
  { intros x. rewrite !in_app_iff, !In_option_list. split.
    - intros [-> | ->].
      + left. right. right. right. left. exists x. simpl. auto.
      + left. right. right. right. right. exists x. simpl. auto.
    - intros H. crush_in; auto. }
  do 11 (split; [reflexivity|]).
  destruct pr, src, st, ic, oc, cb3; repeat split.
Qed.

(** When the microphone is refused, [connect] throws the refusal after
    the first two statuses and before any transport session is asked
    for.  It cleans nothing up: the two audio contexts it has just created
    stay installed (the stream, the session handle and the session promise
    are as before), and they are closed only by a later [stop]. *)
Theorem connect_mic_denied env s e :
  getUserMedia env = inl e ->
  exists s1 log s2 log2,
    connect env s = Thrown e s1 log /\
    statuses_of log = (if onStatusChange s
                       then ["Initializing Audio..."; "Requesting Mic..."]
                       else []) /\
    connects_of log = [] /\
    releases_of log = [] /\
    inputAudioContext s1 = Some (newInputContext env) /\
    outputAudioContext s1 = Some (newOutputContext env) /\
    stream s1 = stream s /\
    currentSession s1 = currentSession s /\
    sessionPromise s1 = sessionPromise s /\
    stop s1 = Returned tt s2 log2 /\
    In (ContextClose (newInputContext env)) log2 /\
    In (ContextClose (newOutputContext env)) log2.
Proof.
  destruct s as [ic oc st0 pr src nst sp cs cb1 cb2 cb3].
  destruct env as [nic isusp noc osusp mic live]. simpl. intros ->.
  exists (mkService (Some nic) (Some noc) st0 pr src nst sp cs cb1 cb2 cb3).
  destruct cb3, isusp, osusp;
    (eexists _, _, _; split; [reflexivity|];
     do 8 (split; [reflexivity|]);
     split; [apply stop_run|];
     unfold release_log; simpl; rewrite !in_app_iff; simpl; tauto).
Qed.

Lemma connect_mic_denied_witness :
  getUserMedia (mkConnectEnv (AudioContextRef 1) false (AudioContextRef 2) false
                             (inl (NotAllowedError "Permission denied"))
                             (inr (SessionRef 1)))
  = inl (NotAllowedError "Permission denied") /\
  exists s1 log,
    connect (mkConnectEnv (AudioContextRef 1) false (AudioContextRef 2) false
                          (inl (NotAllowedError "Permission denied"))
                          (inr (SessionRef 1))) host_service
    = Thrown (NotAllowedError "Permission denied") s1 log /\
    statuses_of log = ["Initializing Audio..."; "Requesting Mic..."] /\
    connects_of log = [] /\
    inputAudioContext s1 = Some (AudioContextRef 1) /\
    outputAudioContext s1 = Some (AudioContextRef 2) /\
    stream s1 = None /\
    In (ContextClose (AudioContextRef 1)) (log_of (stop s1)) /\
    In (ContextClose (AudioContextRef 2)) (log_of (stop s1)).
Proof.
  split; [reflexivity|].
  destruct (connect_mic_denied
              (mkConnectEnv (AudioContextRef 1) false (AudioContextRef 2) false
                            (inl (NotAllowedError "Permission denied"))
                            (inr (SessionRef 1)))
              host_service (NotAllowedError "Permission denied") eq_refl)
    as [s1 [log [s2 [log2 [H1 [H2 [H3 [_ [H5 [H6 [H7 [_ [_ [H10 [H11 H12]]]]]]]]]]]]]]].
  exists s1, log. rewrite H10. simpl log_of.
  repeat split; assumption.
Defined.

(** When the microphone is granted but the transport session fails to
    open, [connect] throws the failure at its last [await], with the
    session handle unchanged.  Nothing is released on that path either:
    the new contexts and the microphone stream remain held, and no status
    is reported after ["Connecting to HQ..."]. *)
Theorem connect_session_rejected env s st e :
  getUserMedia env = inr st ->
  liveConnect env = inl e ->
  exists s1 log,
    connect env s = Returned (inl e) s1 log /\
    connect_resumed (inl e) s1 = Thrown e s1 [] /\
    statuses_of log = (if onStatusChange s
                       then ["Initializing Audio..."; "Requesting Mic...";
                             "Connecting to HQ..."]
                       else []) /\
    releases_of log = [] /\
    inputAudioContext s1 = Some (newInputContext env) /\
    outputAudioContext s1 = Some (newOutputContext env) /\
    stream s1 = Some st /\
    currentSession s1 = currentSession s.
Proof.
  destruct s as [ic oc st0 pr src nst sp cs cb1 cb2 cb3].
  destruct env as [nic isusp noc osusp mic live]. simpl. intros -> ->.
  exists (mkService (Some nic) (Some noc) (Some st) pr src nst
                    (Some (inl e)) cs cb1 cb2 cb3).
  destruct cb3, isusp, osusp;
    (eexists; split; [reflexivity|]; repeat split).
Qed.

Lemma connect_session_rejected_witness :
  getUserMedia (mkConnectEnv (AudioContextRef 1) false (AudioContextRef 2) false
                             (inr (MediaStreamRef 1))
                             (inl (ConnectError "handshake failed")))
  = inr (MediaStreamRef 1) /\
  liveConnect (mkConnectEnv (AudioContextRef 1) false (AudioContextRef 2) false
                            (inr (MediaStreamRef 1))
                            (inl (ConnectError "handshake failed")))
  = inl (ConnectError "handshake failed") /\
  exists s1 log,
    connect (mkConnectEnv (AudioContextRef 1) false (AudioContextRef 2) false
                          (inr (MediaStreamRef 1))
                          (inl (ConnectError "handshake failed"))) host_service
    = Returned (inl (ConnectError "handshake failed")) s1 log /\
    connect_resumed (inl (ConnectError "handshake failed")) s1
    = Thrown (ConnectError "handshake failed") s1 [] /\
    statuses_of log = ["Initializing Audio..."; "Requesting Mic...";
                       "Connecting to HQ..."] /\
    releases_of log = [] /\
    stream s1 = Some (MediaStreamRef 1) /\
    currentSession s1 = None.
Proof.
  split; [reflexivity|]. split; [reflexivity|].
  destruct (connect_session_rejected
              (mkConnectEnv (AudioContextRef 1) false (AudioContextRef 2) false
                            (inr (MediaStreamRef 1))
                            (inl (ConnectError "handshake failed")))
              host_service (MediaStreamRef 1) (ConnectError "handshake failed")
              eq_refl eq_refl)
    as [s1 [log [H1 [H2 [H3 [H4 [_ [_ [H7 H8]]]]]]]]].
  exists s1, log. repeat split; assumption.
Defined.

(** [handleOpen] when the input context or the stream is missing: it
    reports ["Live"] and does nothing else; no node is created and no
    field changes.  This is what a late [onopen] finds after [stop]. *)
Theorem handleOpen_without_resources oenv s :
  (inputAudioContext s = None \/ stream s = None ->
   handleOpen oenv s
   = Returned tt s (if onStatusChange s then [StatusChange "Live"] else [])) /\
  handleOpen oenv (state_of (stop s))
  = Returned tt (state_of (stop s))
             (if onStatusChange s then [StatusChange "Live"] else []).
Proof.
  destruct s as [ic oc st pr src nst sp cs cb1 cb2 cb3]. split.
  - simpl. intros [-> | ->]; [|destruct ic]; destruct cb3; reflexivity.
  - rewrite stop_run. simpl. destruct cb3; reflexivity.
Qed.

Lemma handleOpen_without_resources_witness :
  (inputAudioContext host_service = None \/ stream host_service = None) /\
  handleOpen first_open host_service
  = Returned tt host_service [StatusChange "Live"] /\
  handleOpen first_open (state_of (stop live_service))
  = Returned tt (state_of (stop live_service)) [StatusChange "Live"].
Proof.
  destruct (handleOpen_without_resources first_open host_service) as [Hearly _].
  destruct (handleOpen_without_resources first_open live_service) as [_ Hlate].
  split; [left; reflexivity|].
  split; [exact (Hearly (or_introl eq_refl)) | exact Hlate].
Defined.

(** ** Capture, before, during and after a session *)

Lemma byte_of_Z_value z :
  Z.of_N (Byte.to_N (byte_of_Z z)) = (z mod 256)%Z.
Proof.
  unfold byte_of_Z.
  assert (Hrange : (0 <= z mod 256 < 256)%Z) by (apply Z.mod_pos_bound; lia).
  destruct (Byte.of_N (Z.to_N (z mod 256))) as [b|] eqn:Hb.
  - apply Byte.to_of_N in Hb. rewrite Hb. apply Z2N.id. lia.
  - apply Byte.of_N_None_iff in Hb. lia.
Qed.

Lemma int16_bytes_read_back v :
  (-32768 <= v <= 32767)%Z ->
  exists lo hi, int16_bytes v = [lo; hi] /\ int16_of_bytes lo hi = v.
Proof.
  intros Hv. unfold int16_bytes. eexists _, _. split; [reflexivity|].
  unfold int16_of_bytes. rewrite !byte_of_Z_value.
  assert (Hu : (0 <= v mod 65536 < 65536)%Z) by (apply Z.mod_pos_bound; lia).
  assert (Hhi : ((v mod 65536 / 256) mod 256 = v mod 65536 / 256)%Z).
  { apply Z.mod_small. split; [apply Z.div_pos; lia|].
    apply Z.div_lt_upper_bound; lia. }
  rewrite Hhi.
  assert (Hsum : ((v mod 65536) mod 256 + 256 * (v mod 65536 / 256)
                  = v mod 65536)%Z).
  { pose proof (Z.div_mod (v mod 65536) 256). lia. }
  rewrite Hsum.
  destruct (Z.ltb_spec (v mod 65536) 32768) as [Hlt | Hge].
  - destruct (Z.le_gt_cases 0 v) as [Hpos | Hneg].
    + apply Z.mod_small. lia.
    + assert (Hm : (v mod 65536 = v + 65536)%Z).
      { symmetry. apply (Z.mod_unique v 65536 (-1) (v + 65536)); lia. }
      lia.
  - destruct (Z.le_gt_cases 0 v) as [Hpos | Hneg].
    + rewrite Z.mod_small in Hge; lia.
    + assert (Hm : (v mod 65536 = v + 65536)%Z).
      { symmetry. apply (Z.mod_unique v 65536 (-1) (v + 65536)); lia. }
      lia.
Qed.

Lemma uint8_view_length pcm :
  List.length (uint8_view pcm) = (2 * List.length pcm)%nat.
Proof.
  unfold uint8_view. induction pcm as [|v rest IH]; simpl; [reflexivity|].
  rewrite IH. lia.
Qed.

Lemma int16_view_uint8_view pcm :
  Forall (fun v => (-32768 <= v <= 32767)%Z) pcm ->
  int16_view (uint8_view pcm) = pcm.
Proof.
  unfold uint8_view. induction 1 as [|v rest Hv _ IH]; [reflexivity|].
  cbn [flat_map].
  destruct (int16_bytes_read_back v Hv) as [lo [hi [-> Hback]]].
  cbn [app int16_view]. rewrite Hback, IH. reflexivity.
Qed.

(** Every captured frame is forwarded exactly once while a session
    handle is held, whether or not a level callback is installed.  The
    message is tagged [audio/pcm;rate=16000]; its data is the base64 text
    of a byte buffer that holds two bytes per encoded sample and from
    which the encoded samples read back exactly (low byte first, two's
    complement), the elements of an [Int16Array] being 16-bit.  The
    callback changes no field. *)
Theorem every_frame_is_sent utils frame s sess :
  currentSession s = Some sess ->
  Forall (fun v => (-32768 <= v <= 32767)%Z) (float32ToInt16PCM utils frame) ->
  exists log bytes,
    onaudioprocess utils frame s = Returned tt s log /\
    realtime_sends_of log
    = [(sess, "audio/pcm;rate=16000", arrayBufferToBase64 utils bytes)] /\
    List.length bytes
    = (2 * List.length (float32ToInt16PCM utils frame))%nat /\
    int16_view bytes = float32ToInt16PCM utils frame /\
    List.length (levels_of log) = (if onAudioLevel s then 1 else 0)%nat /\
    errors_of log = [].
Proof.
  intros Hsess Hrange.
  eexists _, (uint8_view (float32ToInt16PCM utils frame)).
  split; [apply onaudioprocess_run|].
  rewrite Hsess, realtime_sends_of_app, levels_of_app, errors_of_app.
  split; [destruct (onAudioLevel s); reflexivity|].
  split; [apply uint8_view_length|].
  split; [apply int16_view_uint8_view; exact Hrange|].
  destruct (onAudioLevel s); split; reflexivity.
Qed.

Lemma every_frame_is_sent_witness :
  currentSession (set_currentSession (Some (SessionRef 7)) new_service)
  = Some (SessionRef 7) /\
  Forall (fun v => (-32768 <= v <= 32767)%Z)
         (float32ToInt16PCM loud_utils [1; 0]) /\
  int16_view (uint8_view [-32768; 255; -2]%Z) = [-32768; 255; -2]%Z /\
  exists log bytes,
    onaudioprocess loud_utils [1; 0]
                   (set_currentSession (Some (SessionRef 7)) new_service)
    = Returned tt (set_currentSession (Some (SessionRef 7)) new_service) log /\
    realtime_sends_of log
    = [(SessionRef 7, "audio/pcm;rate=16000",
        arrayBufferToBase64 loud_utils bytes)] /\
    List.length bytes = 4%nat /\
    int16_view bytes = [-12345; -12345]%Z /\
    List.length (levels_of log) = 0%nat /\
    errors_of log = [].
Proof.
  assert (Hrange : Forall (fun v => (-32768 <= v <= 32767)%Z)
                          (float32ToInt16PCM loud_utils [1; 0])).
  { simpl. repeat constructor; lia. }
  split; [reflexivity|]. split; [exact Hrange|]. split; [reflexivity|].
  exact (every_frame_is_sent loud_utils [1; 0]
           (set_currentSession (Some (SessionRef 7)) new_service)
           (SessionRef 7) eq_refl Hrange).
Defined.

Lemma captureFrames_run utils frames : forall s,
  exists log,
    captureFrames utils frames s = Returned tt s log /\
    realtime_sends_of log
    = match currentSession s with
      | Some sess => map (fun frame => (sess, audio_mime, payload utils frame))
                         frames
      | None => []
      end /\
    levels_of log = if onAudioLevel s then map rms frames else [].
Proof.
  induction frames as [|frame rest IH]; intros s.
  - exists []. repeat split;
      [destruct (currentSession s) | destruct (onAudioLevel s)]; reflexivity.
  - destruct (IH s) as [log [Hrun [Hsends Hlevels]]].
    eexists. split.
    { simpl. eapply bind_returned; [apply onaudioprocess_run | exact Hrun]. }
    rewrite !realtime_sends_of_app, !levels_of_app, Hsends, Hlevels.
    destruct (currentSession s), (onAudioLevel s); split; reflexivity.
Qed.

(** Frames captured one after the other are forwarded in capture order,
    one message per frame, and their levels are reported in the same
    order; without a session handle the whole run sends nothing. *)
Theorem frames_sent_in_capture_order utils frames s :
  exists log,
    captureFrames utils frames s = Returned tt s log /\
    (forall sess, currentSession s = Some sess ->
       realtime_sends_of log
       = map (fun frame => (sess, "audio/pcm;rate=16000", payload utils frame))
             frames) /\
    (currentSession s = None -> realtime_sends_of log = []) /\
    (onAudioLevel s = true -> levels_of log = map rms_spec frames).
Proof.
  destruct (captureFrames_run utils frames s) as [log [Hrun [Hsends Hlevels]]].
  exists log. split; [exact Hrun|]. split; [|split].
  - intros sess Hsess. rewrite Hsends, Hsess. reflexivity.
  - intros Hnone. rewrite Hsends, Hnone. reflexivity.
  - intros Hcb. rewrite Hlevels, Hcb. apply map_ext. apply rms_is_rms_spec.
Qed.

Lemma frames_sent_in_capture_order_witness :
  currentSession live_service = Some (SessionRef 1) /\
  onAudioLevel live_service = true /\
  exists log,
    captureFrames sample_utils [[1; 0]; [0; 0]; [1; 1]] live_service
    = Returned tt live_service log /\
    realtime_sends_of log
    = [(SessionRef 1, "audio/pcm;rate=16000", payload sample_utils [1; 0]);
       (SessionRef 1, "audio/pcm;rate=16000", payload sample_utils [0; 0]);
       (SessionRef 1, "audio/pcm;rate=16000", payload sample_utils [1; 1])] /\
    levels_of log = [rms_spec [1; 0]; rms_spec [0; 0]; rms_spec [1; 1]].
Proof.
  split; [reflexivity|]. split; [reflexivity|].
  destruct (frames_sent_in_capture_order sample_utils [[1; 0]; [0; 0]; [1; 1]]
              live_service) as [log [Hrun [Hsends [_ Hlevels]]]].
  exists log. split; [exact Hrun|].
  split; [exact (Hsends (SessionRef 1) eq_refl) | exact (Hlevels eq_refl)].
Defined.

(** A frame captured after [onopen] but before the session promise has
    resolved is lost: capture is already wired and running, yet nothing is
    sent.  Once [connect] has resumed with the promise's session, the same
    frame is sent on it. *)
Theorem frames_before_session_resolves utils env oenv frame s st sess :
  currentSession s = None ->
  getUserMedia env = inr st ->
  liveConnect env = inr sess ->
  exists s1 log1 early s2 late,
    (promise <- connect env;; handleOpen oenv;; ret promise) s
    = Returned (inr sess) s1 log1 /\
    In (SetOnAudioProcess (newProcessor oenv) true) log1 /\
    onaudioprocess utils frame s1 = Returned tt s1 early /\
    realtime_sends_of early = [] /\
    connect_resumed (inr sess) s1 = Returned tt s2 [] /\
    onaudioprocess utils frame s2 = Returned tt s2 late /\
    realtime_sends_of late
    = [(sess, "audio/pcm;rate=16000", payload utils frame)].
Proof.
  intros Hsess Hmic Hlive.
  pose proof (connect_run env s st Hmic) as Hconnect.
  rewrite Hlive in Hconnect at 1.
  set (s0 := set_sessionPromise (Some (liveConnect env))
               (set_stream (Some st)
                  (set_outputAudioContext (Some (newOutputContext env))
                     (set_inputAudioContext (Some (newInputContext env)) s))))
    in Hconnect.
  pose proof (handleOpen_run oenv s0 (newInputContext env) st eq_refl eq_refl)
    as Hopen.
  set (s1 := set_processor (Some (newProcessor oenv))
               (set_source (Some (newSource oenv)) s0)) in Hopen.
  exists s1. eexists _, _. exists (set_currentSession (Some sess) s1). eexists.
  split.
  { eapply bind_returned; [exact Hconnect|].
    eapply bind_returned; [exact Hopen | reflexivity]. }
  split.
  { rewrite !in_app_iff. simpl. tauto. }
  split; [apply onaudioprocess_run|].
  split.
  { change (currentSession s1) with (currentSession s). rewrite Hsess.
    rewrite realtime_sends_of_app. destruct (onAudioLevel s1); reflexivity. }
  split; [reflexivity|].
  split; [apply onaudioprocess_run|].
  change (currentSession (set_currentSession (Some sess) s1)) with (Some sess).
  rewrite realtime_sends_of_app.
  destruct (onAudioLevel (set_currentSession (Some sess) s1)); reflexivity.
Qed.

Lemma frames_before_session_resolves_witness :
  currentSession host_service = None /\
  getUserMedia first_connect = inr (MediaStreamRef 1) /\
  liveConnect first_connect = inr (SessionRef 1) /\
  exists s1 log1 early s2 late,
    (promise <- connect first_connect;; handleOpen first_open;; ret promise)
      host_service
    = Returned (inr (SessionRef 1)) s1 log1 /\
    In (SetOnAudioProcess (ScriptProcessorRef 1) true) log1 /\
    onaudioprocess sample_utils [1; 0] s1 = Returned tt s1 early /\
    realtime_sends_of early = [] /\
    connect_resumed (inr (SessionRef 1)) s1 = Returned tt s2 [] /\
    onaudioprocess sample_utils [1; 0] s2 = Returned tt s2 late /\
    realtime_sends_of late
    = [(SessionRef 1, "audio/pcm;rate=16000", payload sample_utils [1; 0])].
Proof.
  split; [reflexivity|]. split; [reflexivity|]. split; [reflexivity|].
  exact (frames_before_session_resolves sample_utils first_connect first_open
           [1; 0] host_service (MediaStreamRef 1) (SessionRef 1)
           eq_refl eq_refl eq_refl).
Defined.

(** The transport's [onerror] does not end the session: it logs the
    error and reports ["Connection Error"], releases nothing and changes
    no field, so capture goes on sending to the same session. *)
Theorem onerror_keeps_session utils err frame s sess :
  currentSession s = Some sess ->
  exists log after,
    onerror err s = Returned tt s log /\
    errors_of log = [("Live API Error:", err)] /\
    statuses_of log = (if onStatusChange s then ["Connection Error"] else []) /\
    releases_of log = [] /\
    (onerror err;; onaudioprocess utils frame) s
    = Returned tt s (log ++ after) /\
    realtime_sends_of after
    = [(sess, "audio/pcm;rate=16000", payload utils frame)].
Proof.
  intros Hsess.
  assert (Hrun : onerror err s
                 = Returned tt s ([ConsoleError "Live API Error:" err]
                                    ++ status_log s "Connection Error")).
  { unfold onerror. eapply bind_returned; [reflexivity | apply notifyStatus_run]. }
  eexists _, _. split; [exact Hrun|].
  split; [unfold status_log; destruct (onStatusChange s); reflexivity|].
  split; [unfold status_log; destruct (onStatusChange s); reflexivity|].
  split; [unfold status_log; destruct (onStatusChange s); reflexivity|].
  split.
  { eapply bind_returned; [exact Hrun | apply onaudioprocess_run]. }
  rewrite Hsess, realtime_sends_of_app. destruct (onAudioLevel s); reflexivity.
Qed.

Lemma onerror_keeps_session_witness :
  currentSession live_service = Some (SessionRef 1) /\
  exists log after,
    onerror (ConnectError "socket error") live_service
    = Returned tt live_service log /\
    errors_of log = [("Live API Error:", ConnectError "socket error")] /\
    statuses_of log = ["Connection Error"] /\
    releases_of log = [] /\
    (onerror (ConnectError "socket error");; onaudioprocess sample_utils [1; 0])
      live_service
    = Returned tt live_service (log ++ after) /\
    realtime_sends_of after
    = [(SessionRef 1, "audio/pcm;rate=16000", payload sample_utils [1; 0])].
Proof.
  split; [reflexivity|].
  exact (onerror_keeps_session sample_utils (ConnectError "socket error")
           [1; 0] live_service (SessionRef 1) eq_refl).
Defined.

(** ** The message handler on any message *)

(** The log of the audio branch: nothing, one start, or one
    diagnostic. *)
Lemma handleMessage_cases utils env message s :
  exists t alog,
    handleMessage utils env message s
    = Returned tt (set_nextStartTime t s) (alog ++ tool_log env message s) /\
    ((alog = [] /\ t = nextStartTime s /\
      decoded_chunk utils s message = None /\
      decode_failure utils s message = None) \/
     (exists ctx buffer,
        alog = [SourceStart ctx buffer (Rmax (nextStartTime s) (currentTime env))] /\
        t = Rmax (nextStartTime s) (currentTime env) + duration buffer /\
        decoded_chunk utils s message = Some buffer) \/
     (exists e,
        alog = [ConsoleError "Error decoding audio" e] /\
        t = Rmax (nextStartTime s) (currentTime env) /\
        decode_failure utils s message = Some e)).
Proof.
  assert (Htool : forall t,
             handleToolCalls env message (set_nextStartTime t s)
             = Returned tt (set_nextStartTime t s) (tool_log env message s)).
  { intros t. exact (handleToolCalls_run env message (set_nextStartTime t s)). }
  destruct (decoded_chunk utils s message) as [buffer|] eqn:Hd.
  - destruct (handleAudio_decoded utils env message s buffer Hd)
      as [ctx [_ Hrun]].
    eexists _, _. split.
    + unfold handleMessage. eapply bind_returned; [exact Hrun | apply Htool].
    + right. left. exists ctx, buffer. repeat split.
  - destruct (decode_failure utils s message) as [e|] eqn:Hf.
    + eexists _, _. split.
      * unfold handleMessage. eapply bind_returned;
          [apply (handleAudio_failed utils env message s e Hf) | apply Htool].
      * right. right. exists e. repeat split.
    + exists (nextStartTime s), []. rewrite set_nextStartTime_same. split.
      * unfold handleMessage.
        apply (bind_returned _ _ s tt s [] tt s (tool_log env message s));
          [apply (handleAudio_skipped utils env message s Hd Hf)
          | apply handleToolCalls_run].
      * left. repeat split.
Qed.



(** After [stop], nothing flows any more.  A late capture callback sends
    nothing; an inbound message schedules no audio, logs no error and
    leaves the cursor where it was; its tool calls still reach the host
    callback, but no response goes back to the transport. *)
Theorem after_stop_nothing_flows utils env message frame s :
  exists s' late log,
    state_of (stop s) = s' /\
    onaudioprocess utils frame s' = Returned tt s' late /\
    realtime_sends_of late = [] /\
    handleMessage utils env message s' = Returned tt s' log /\
    scheduled_of log = [] /\
    errors_of log = [] /\
    tool_sends_of log = [] /\
    (forall tc, toolCall message = Some tc ->
       reports_of log = if onReportSubmitted s
                        then map fc_args (recognized (functionCalls tc))
                        else []).
Proof.
  rewrite stop_run. simpl state_of.
  assert (Hd : decoded_chunk utils (stopped s) message = None).
  { unfold decoded_chunk. simpl.
    destruct (truthy_string (base64Audio_of message)); reflexivity. }
  assert (Hf : decode_failure utils (stopped s) message = None).
  { unfold decode_failure. simpl.
    destruct (truthy_string (base64Audio_of message)); reflexivity. }
  exists (stopped s). eexists _, (tool_log env message (stopped s)).
  split; [reflexivity|].
  split; [apply onaudioprocess_run|].
  split.
  { simpl. rewrite app_nil_r. destruct (onAudioLevel s); reflexivity. }
  split.
  { unfold handleMessage.
    apply (bind_returned _ _ (stopped s) tt (stopped s) [] tt (stopped s)
             (tool_log env message (stopped s)));
      [apply (handleAudio_skipped utils env message _ Hd Hf)
      | apply handleToolCalls_run]. }
  destruct (tool_log_silent env message (stopped s)) as [Hs [He _]].
  split; [exact Hs|]. split; [exact He|].
  unfold tool_log. simpl. split.
  - destruct (toolCall message) as [tc|]; [|reflexivity].
    destruct (report_events_silent (onReportSubmitted s) (functionCalls tc))
      as [Hts _].
    rewrite tool_sends_of_app, Hts.
    destruct (responses_from env 0 (functionCalls tc)); reflexivity.
  - intros tc ->. rewrite reports_of_app, reports_of_report_events.
    destruct (responses_from env 0 (functionCalls tc));
      simpl; rewrite app_nil_r; reflexivity.
Qed.

Lemma after_stop_nothing_flows_witness :
  toolCall (mkMessage (serverContent (audio_message "abcd"))
                      (Some (mkToolCall [flood_call])))
  = Some (mkToolCall [flood_call]) /\
  exists late log,
    onaudioprocess sample_utils [1; 0] (state_of (stop live_service))
    = Returned tt (state_of (stop live_service)) late /\
    realtime_sends_of late = [] /\
    handleMessage sample_utils (frozen_clock 3 1700000000000)
      (mkMessage (serverContent (audio_message "abcd"))
                 (Some (mkToolCall [flood_call])))
      (state_of (stop live_service))
    = Returned tt (state_of (stop live_service)) log /\
    scheduled_of log = [] /\
    tool_sends_of log = [] /\
    reports_of log = [fc_args flood_call].
Proof.
  split; [reflexivity|].
  destruct (after_stop_nothing_flows sample_utils
              (frozen_clock 3 1700000000000)
              (mkMessage (serverContent (audio_message "abcd"))
                         (Some (mkToolCall [flood_call])))
              [1; 0] live_service)
    as [s' [late [log [<- [H1 [H2 [H3 [H4 [_ [H6 H7]]]]]]]]]].
  exists late, log. repeat split; try assumption.
  exact (H7 (mkToolCall [flood_call]) eq_refl).
Defined.

(** ** More on playback scheduling *)

(** A chunk that decodes is never started before the output clock's
    reading at handling, nor before the cursor: its start time is the
    later of the two. *)
Theorem never_scheduled_in_the_past utils env message s buffer :
  decoded_chunk utils s message = Some buffer ->
  exists s' log t,
    handleMessage utils env message s = Returned tt s' log /\
    scheduled_of log = [(t, buffer)] /\
    currentTime env <= t /\
    nextStartTime s <= t /\
    (t = currentTime env \/ t = nextStartTime s) /\
    nextStartTime s' = t + duration buffer.
Proof.
  intros Hd.
  destruct (handleMessage_decoded utils env message s buffer Hd)
    as [log [Hrun [Hsched _]]].
  eexists _, log, _. split; [exact Hrun|]. split; [exact Hsched|].
  split; [apply Rmax_r|]. split; [apply Rmax_l|]. split; [|reflexivity].
  unfold Rmax. destruct (Rle_dec (nextStartTime s) (currentTime env)); auto.
Qed.

Lemma never_scheduled_in_the_past_witness :
  decoded_chunk sample_utils played_service (audio_message "abcd")
    = Some (mkAudioBuffer 2 24000) /\
  exists s' log t,
    handleMessage sample_utils (frozen_clock 4 0) (audio_message "abcd")
                  played_service
    = Returned tt s' log /\
    scheduled_of log = [(t, mkAudioBuffer 2 24000)] /\
    4 <= t /\ 10 <= t /\ (t = 4 \/ t = 10) /\
    nextStartTime s' = t + duration (mkAudioBuffer 2 24000).
Proof.
  split; [reflexivity|].
  exact (never_scheduled_in_the_past sample_utils (frozen_clock 4 0)
           (audio_message "abcd") played_service (mkAudioBuffer 2 24000)
           eq_refl).
Defined.

Lemma handleMessages_no_overlap utils inputs : forall s,
  exists t log,
    handleMessages utils inputs s = Returned tt (set_nextStartTime t s) log /\
    nextStartTime s <= t /\
    Forall (fun x => nextStartTime s <= fst x /\ fst x + duration (snd x) <= t)
           (scheduled_of log) /\
    StronglySorted ends_before (scheduled_of log).
Proof.
  induction inputs as [|[env message] rest IH]; intros s.
  - exists (nextStartTime s), []. rewrite set_nextStartTime_same.
    split; [reflexivity|]. split; [lra|]. split; constructor.
  - destruct (handleMessage_cases utils env message s)
      as [t1 [alog [Hrun1 Hcases]]].
    destruct (IH (set_nextStartTime t1 s))
      as [t2 [log2 [Hrun2 [Hle2 [Hall2 Hsort2]]]]].
    simpl in Hle2, Hall2. rewrite set_nextStartTime_twice in Hrun2.
    exists t2, ((alog ++ tool_log env message s) ++ log2). split.
    { simpl. eapply bind_returned; [exact Hrun1 | exact Hrun2]. }
    destruct (tool_log_silent env message s) as [Htool _].
    autorewrite with log_split. rewrite Htool, app_nil_r.
    assert (Hall2' : forall lo, lo <= t1 ->
              Forall (fun x => lo <= fst x /\ fst x + duration (snd x) <= t2)
                     (scheduled_of log2)).
    { intros lo Hlo. eapply Forall_impl; [|exact Hall2].
      simpl. intros a [Ha1 Ha2]. split; lra. }
    destruct Hcases as [[-> [-> _]] | [[ctx [buffer [-> [-> _]]]] | [e [-> [-> _]]]]];
      simpl.
    + split; [exact Hle2|]. split; [|exact Hsort2]. apply Hall2'. lra.
    + pose proof (duration_nonneg buffer) as Hdur.
      pose proof (Rmax_l (nextStartTime s) (currentTime env)) as Hmax.
      split; [lra|]. split.
      * constructor; [simpl; split; lra|]. apply Hall2'. lra.
      * constructor; [exact Hsort2|].
        eapply Forall_impl; [|exact Hall2].
        unfold ends_before. simpl. intros a [Ha _]. exact Ha.
    + pose proof (Rmax_l (nextStartTime s) (currentTime env)) as Hmax.
      split; [lra|]. split; [|exact Hsort2]. apply Hall2'. exact Hmax.
Qed.

(** Scheduled buffers never overlap.  Over any sequence of inbound
    messages (chunks that decode, chunks that fail, messages without
    audio), every buffer started is over by the time any later one starts,
    none starts before the cursor's initial position, and all are over by
    the cursor's final position. *)
Theorem scheduled_buffers_never_overlap utils inputs s :
  exists s' log,
    handleMessages utils inputs s = Returned tt s' log /\
    StronglySorted ends_before (scheduled_of log) /\
    Forall (fun x => nextStartTime s <= fst x /\
                     fst x + duration (snd x) <= nextStartTime s')
           (scheduled_of log).
Proof.
  destruct (handleMessages_no_overlap utils inputs s)
    as [t [log [Hrun [_ [Hall Hsort]]]]].
  exists (set_nextStartTime t s), log. repeat split; assumption.
Qed.

Lemma scheduled_of_release_log s : scheduled_of (release_log s) = [].
Proof.
  unfold release_log.
  destruct (processor s), (source s), (stream s), (inputAudioContext s),
    (outputAudioContext s); reflexivity.
Qed.

Lemma scheduled_of_status_log s text : scheduled_of (status_log s text) = [].
Proof. unfold status_log. destruct (onStatusChange s); reflexivity. Qed.

Lemma start_session_run env oenv s st sess :
  getUserMedia env = inr st ->
  liveConnect env = inr sess ->
  exists log,
    start_session env oenv s = Returned tt (started env oenv st sess s) log /\
    scheduled_of log = [].
Proof.
  destruct s as [ic oc st0 pr src nst sp cs cb1 cb2 cb3].
  destruct env as [nic isusp noc osusp mic live].
  destruct oenv as [nsrc nproc]. simpl. intros -> ->.
  destruct cb3, isusp, osusp; eexists; split; reflexivity.
Qed.

(** The cursor is an instance field that neither [stop] nor [connect]
    resets, while every [connect] creates a fresh output context.  So
    after a restart, a chunk handled while the new context's clock is
    still behind the old cursor is started at the old cursor, not at the
    clock reading. *)
Theorem cursor_survives_restart utils env oenv menv message s st sess
        base64Audio buffer :
  getUserMedia env = inr st ->
  liveConnect env = inr sess ->
  truthy_string (base64Audio_of message) = Some base64Audio ->
  decodeAudioData utils (base64ToUint8Array utils base64Audio)
                  (newOutputContext env) = inr buffer ->
  currentTime menv < nextStartTime s ->
  exists s' log,
    (stop;; start_session env oenv;; handleMessage utils menv message) s
    = Returned tt s' log /\
    scheduled_of log = [(nextStartTime s, buffer)] /\
    nextStartTime s' = nextStartTime s + duration buffer.
Proof.
  intros Hmic Hlive Hb64 Hdec Hlate.
  destruct (start_session_run env oenv (stopped s) st sess Hmic Hlive)
    as [log2 [Hstart Hsched2]].
  assert (Hd : decoded_chunk utils (started env oenv st sess (stopped s)) message
               = Some buffer).
  { unfold decoded_chunk. rewrite Hb64. simpl. rewrite Hdec. reflexivity. }
  destruct (handleMessage_decoded utils menv message
              (started env oenv st sess (stopped s)) buffer Hd)
    as [log3 [Hrun3 [Hsched3 _]]].
  simpl nextStartTime in Hrun3, Hsched3.
  assert (Hmax : Rmax (nextStartTime s) (currentTime menv) = nextStartTime s)
    by (apply Rmax_left; lra).
  rewrite Hmax in Hrun3, Hsched3.
  eexists _, _. split.
  { eapply bind_returned; [apply stop_run|].
    eapply bind_returned; [exact Hstart | exact Hrun3]. }
  split; [|reflexivity].
  autorewrite with log_split.
  rewrite Hsched2, Hsched3, scheduled_of_release_log, scheduled_of_status_log.
  reflexivity.
Qed.

Lemma cursor_survives_restart_witness :
  getUserMedia second_connect = inr (MediaStreamRef 2) /\
  liveConnect second_connect = inr (SessionRef 2) /\
  truthy_string (base64Audio_of (audio_message "abcd")) = Some "abcd" /\
  decodeAudioData sample_utils (base64ToUint8Array sample_utils "abcd")
                  (newOutputContext second_connect)
  = inr (mkAudioBuffer 2 24000) /\
  currentTime (frozen_clock 0 0) < nextStartTime played_service /\
  exists s' log,
    (stop;; start_session second_connect first_open;;
     handleMessage sample_utils (frozen_clock 0 0) (audio_message "abcd"))
      played_service
    = Returned tt s' log /\
    scheduled_of log = [(10, mkAudioBuffer 2 24000)] /\
    nextStartTime s' = 10 + duration (mkAudioBuffer 2 24000).
Proof.
  assert (Hlate : currentTime (frozen_clock 0 0) < nextStartTime played_service)
    by (simpl; lra).
  split; [reflexivity|]. split; [reflexivity|]. split; [reflexivity|].
  split; [reflexivity|]. split; [exact Hlate|].
  exact (cursor_survives_restart sample_utils second_connect first_open
           (frozen_clock 0 0) (audio_message "abcd") played_service
           (MediaStreamRef 2) (SessionRef 2) "abcd" (mkAudioBuffer 2 24000)
           eq_refl eq_refl eq_refl eq_refl Hlate).
Defined.

(** ** More on tool calls *)

Lemma recognized_responses_nonempty env calls i :
  recognized calls <> [] -> responses_from env i calls <> [].
Proof.
  intros Hne Hnil. apply Hne.
  pose proof (responses_from_length env calls i) as Hlen.
  rewrite Hnil in Hlen. simpl in Hlen.
  destruct (recognized calls); [reflexivity | discriminate].
Qed.

(** The two branches of the handler are independent: when the audio
    chunk of a message fails to decode, the tool calls carried by the same
    message are still reported to the host and answered. *)
Theorem tool_calls_answered_despite_decode_failure
        utils env message s e tc sess :
  decode_failure utils s message = Some e ->
  toolCall message = Some tc ->
  recognized (functionCalls tc) <> [] ->
  currentSession s = Some sess ->
  exists s' log responses,
    handleMessage utils env message s = Returned tt s' log /\
    errors_of log = [("Error decoding audio", e)] /\
    scheduled_of log = [] /\
    tool_sends_of log = [(sess, responses)] /\
    map fr_id responses = map fc_id (recognized (functionCalls tc)) /\
    reports_of log = (if onReportSubmitted s
                      then map fc_args (recognized (functionCalls tc))
                      else []).
Proof.
  intros Hf Htc Hne Hsess.
  destruct (handleMessage_cases utils env message s) as [t [alog [Hrun Hcases]]].
  exists (set_nextStartTime t s), (alog ++ tool_log env message s),
         (responses_from env 0 (functionCalls tc)).
  split; [exact Hrun|].
  destruct (tool_log_silent env message s) as [Hs [He _]].
  assert (Halog : alog = [ConsoleError "Error decoding audio" e]).
  { destruct Hcases
      as [[_ [_ [_ Hf']]] | [[ctx [b [_ [_ Hd]]]] | [e' [-> [_ Hf']]]]].
    - rewrite Hf in Hf'. discriminate Hf'.
    - unfold decoded_chunk in Hd. unfold decode_failure in Hf.
      destruct (truthy_string (base64Audio_of message)) as [b64|];
        [|discriminate].
      destruct (outputAudioContext s) as [octx|]; [|discriminate].
      destruct (decodeAudioData utils (base64ToUint8Array utils b64) octx);
        discriminate.
    - rewrite Hf in Hf'. injection Hf' as <-. reflexivity. }
  subst alog. autorewrite with log_split. rewrite Hs, He.
  split; [reflexivity|]. split; [reflexivity|].
  rewrite responses_from_ids. unfold tool_log. rewrite Htc, Hsess.
  autorewrite with log_split.
  destruct (report_events_silent (onReportSubmitted s) (functionCalls tc))
    as [-> _].
  rewrite reports_of_report_events.
  pose proof (recognized_responses_nonempty env (functionCalls tc) 0 Hne) as Hr.
  destruct (responses_from env 0 (functionCalls tc)) as [|r rs];
    [contradiction|].
  simpl. rewrite app_nil_r. repeat split.
Qed.

Lemma tool_calls_answered_despite_decode_failure_witness :
  decode_failure sample_utils live_service
    (mkMessage (serverContent (audio_message "abc"))
               (Some (mkToolCall [flood_call])))
  = Some (DecodeError "odd byte length") /\
  recognized [flood_call] <> [] /\
  currentSession live_service = Some (SessionRef 1) /\
  exists s' log responses,
    handleMessage sample_utils (frozen_clock 1 1700000000000)
      (mkMessage (serverContent (audio_message "abc"))
                 (Some (mkToolCall [flood_call])))
      live_service
    = Returned tt s' log /\
    errors_of log = [("Error decoding audio", DecodeError "odd byte length")] /\
    scheduled_of log = [] /\
    tool_sends_of log = [(SessionRef 1, responses)] /\
    map fr_id responses = ["1"] /\
    reports_of log = [fc_args flood_call].
Proof.
  assert (Hne : recognized [flood_call] <> []) by discriminate.
  split; [reflexivity|]. split; [exact Hne|]. split; [reflexivity|].
  exact (tool_calls_answered_despite_decode_failure sample_utils
           (frozen_clock 1 1700000000000)
           (mkMessage (serverContent (audio_message "abc"))
                      (Some (mkToolCall [flood_call])))
           live_service (DecodeError "odd byte length")
           (mkToolCall [flood_call]) (SessionRef 1)
           eq_refl eq_refl Hne eq_refl).
Defined.

(** Success is acknowledged to the agent whether or not anyone received
    the report: with no [onReportSubmitted] callback installed, no report
    is delivered, yet every recognized call is answered with status
    ["success"]. *)
Theorem acknowledged_without_host_callback utils env message s tc sess :
  onReportSubmitted s = false ->
  toolCall message = Some tc ->
  recognized (functionCalls tc) <> [] ->
  currentSession s = Some sess ->
  exists s' log responses,
    handleMessage utils env message s = Returned tt s' log /\
    reports_of log = [] /\
    tool_sends_of log = [(sess, responses)] /\
    map fr_id responses = map fc_id (recognized (functionCalls tc)) /\
    Forall (fun r => status (fr_result r) = "success") responses.
Proof.
  intros Hcb Htc Hne Hsess.
  destruct (handleAudio_run utils env message s)
    as [t [log1 [Hrun [_ [Hrep [Hsend _]]]]]].
  exists (set_nextStartTime t s),
         (log1 ++ tool_log env message (set_nextStartTime t s)),
         (responses_from env 0 (functionCalls tc)).
  split.
  { unfold handleMessage. eapply bind_returned;
      [exact Hrun | apply handleToolCalls_run]. }
  unfold tool_log. rewrite Htc. simpl onReportSubmitted. simpl currentSession.
  rewrite Hcb, Hsess. autorewrite with log_split. rewrite Hrep, Hsend.
  pose proof (recognized_responses_nonempty env (functionCalls tc) 0 Hne) as Hr.
  pose proof (responses_from_shape env (functionCalls tc) 0) as Hshape.
  rewrite responses_from_ids.
  destruct (responses_from env 0 (functionCalls tc)) as [|r rs];
    [contradiction|].
  simpl. repeat split.
  eapply Forall_impl; [|exact Hshape]. intros a [_ Ha]. exact Ha.
Qed.

Lemma acknowledged_without_host_callback_witness :
  onReportSubmitted (set_currentSession (Some (SessionRef 7)) new_service)
  = false /\
  recognized [other_call; fire_call] <> [] /\
  exists s' log responses,
    handleMessage sample_utils (frozen_clock 0 1700000000000)
      (tool_message [other_call; fire_call])
      (set_currentSession (Some (SessionRef 7)) new_service)
    = Returned tt s' log /\
    reports_of log = [] /\
    tool_sends_of log = [(SessionRef 7, responses)] /\
    map fr_id responses = ["2"] /\
    Forall (fun r => status (fr_result r) = "success") responses.
Proof.
  assert (Hne : recognized [other_call; fire_call] <> []) by discriminate.
  split; [reflexivity|]. split; [exact Hne|].
  exact (acknowledged_without_host_callback sample_utils
           (frozen_clock 0 1700000000000) (tool_message [other_call; fire_call])
           (set_currentSession (Some (SessionRef 7)) new_service)
           (mkToolCall [other_call; fire_call]) (SessionRef 7)
           eq_refl eq_refl Hne eq_refl).
Defined.

(** A message with nothing to act on is a no-op: when the audio data is
    missing or is the empty string (no server content, no model turn, no
    parts, an empty parts list, a first part without inline data) and the
    message carries no tool call, or only calls of other names, the
    handler changes nothing, calls nothing and sends nothing. *)
Theorem idle_message_is_noop utils env message s :
  truthy_string (base64Audio_of message) = None ->
  (forall tc, toolCall message = Some tc -> recognized (functionCalls tc) = []) ->
  handleMessage utils env message s = Returned tt s [].
Proof.
  intros Hnone Htool.
  assert (Hd : decoded_chunk utils s message = None)
    by (unfold decoded_chunk; rewrite Hnone; reflexivity).
  assert (Hf : decode_failure utils s message = None)
    by (unfold decode_failure; rewrite Hnone; reflexivity).
  assert (Hlog : tool_log env message s = []).
  { unfold tool_log. destruct (toolCall message) as [tc|]; [|reflexivity].
    specialize (Htool tc eq_refl).
    pose proof (responses_from_length env (functionCalls tc) 0) as Hlen.
    unfold report_events. rewrite Htool in *. simpl in Hlen.
    destruct (responses_from env 0 (functionCalls tc)); [|discriminate].
    destruct (onReportSubmitted s); reflexivity. }
  unfold handleMessage.
  apply (bind_returned _ _ s tt s [] tt s []);
    [apply (handleAudio_skipped utils env message s Hd Hf)|].
  rewrite handleToolCalls_run, Hlog. reflexivity.
Qed.

Lemma idle_message_is_noop_witness :
  truthy_string
    (base64Audio_of
       (mkMessage (Some (mkServerContent (Some (mkContent (Some [])))))
                  (Some (mkToolCall [other_call])))) = None /\
  truthy_string
    (base64Audio_of
       (mkMessage (serverContent (audio_message EmptyString)) None)) = None /\
  handleMessage sample_utils (frozen_clock 3 0)
    (mkMessage (Some (mkServerContent (Some (mkContent (Some [])))))
               (Some (mkToolCall [other_call])))
    live_service
  = Returned tt live_service [] /\
  handleMessage sample_utils (frozen_clock 3 0)
    (mkMessage (serverContent (audio_message EmptyString)) None) live_service
  = Returned tt live_service [].
Proof.
  split; [reflexivity|]. split; [reflexivity|]. split.
  - apply idle_message_is_noop; [reflexivity|].
    intros tc Htc. injection Htc as <-. reflexivity.
  - apply idle_message_is_noop; [reflexivity|].
    intros tc Htc. discriminate Htc.
Defined.

(** Ticket identifiers separate clock readings: two responses carry the
    same [ticketId] exactly when their calls were handled at the same
    reading of [Date.now()]. *)
Theorem ticketId_separates_readings fc1 fc2 now1 now2 :
  ticketId (fr_result (mkResponse fc1 now1))
  = ticketId (fr_result (mkResponse fc2 now2))
  <-> now1 = now2.
Proof.
  simpl. unfold toString. split; [|intros ->; reflexivity].
  intros Heq. apply DecimalZ.to_int_inj.
  assert (Hparse : forall n,
             NilZero.int_of_string (NilZero.string_of_int (Z.to_int n))
             = Some (Z.to_int n)).
  { intros n. apply NilZero.isi.
    - destruct n; simpl; intros H; [discriminate H | | discriminate H].
      injection H as H. exact (DecimalPos.Unsigned.to_uint_nonnil _ H).
    - destruct n; simpl; intros H; [discriminate H | discriminate H |].
      injection H as H. exact (DecimalPos.Unsigned.to_uint_nonnil _ H). }
  pose proof (Hparse now1) as H1. rewrite Heq, Hparse in H1.
  injection H1 as H1. symmetry. exact H1.
Qed.

Lemma ticketId_separates_readings_witness :
  ticketId (fr_result (mkResponse flood_call 1700000000000))
  <> ticketId (fr_result (mkResponse flood_call 1700000000001)) /\
  ticketId (fr_result (mkResponse flood_call 1700000000000))
  = ticketId (fr_result (mkResponse fire_call 1700000000000)).
Proof.
  split.
  - intros Heq.
    apply (proj1 (ticketId_separates_readings flood_call flood_call
                    1700000000000 1700000000001)) in Heq.
    discriminate Heq.
  - apply (proj2 (ticketId_separates_readings flood_call fire_call
                    1700000000000 1700000000000)). reflexivity.
Defined.

(** ** Reconnecting without stopping *)

(** [connect] overwrites the references to the audio contexts and the
    stream it held, and [stop] releases only what is referenced.  So when
    [connect] is called on a service that already holds resources, the
    earlier contexts are never closed and the earlier stream's tracks are
    never stopped, by this [connect] or by the [stop] that follows; the
    new ones are. *)
Theorem reconnect_abandons_resources env s st c_in c_out st_old :
  getUserMedia env = inr st ->
  inputAudioContext s = Some c_in ->
  outputAudioContext s = Some c_out ->
  stream s = Some st_old ->
  c_in <> newInputContext env -> c_in <> newOutputContext env ->
  c_out <> newInputContext env -> c_out <> newOutputContext env ->
  st_old <> st ->
  exists s' log,
    (connect env;; stop) s = Returned tt s' log /\
    ~ In (ContextClose c_in) log /\
    ~ In (ContextClose c_out) log /\
    ~ In (TracksStop st_old) log /\
    In (ContextClose (newInputContext env)) log /\
    In (ContextClose (newOutputContext env)) log /\
    In (TracksStop st) log.
Proof.
  intros Hmic Hin Hout Hst N1 N2 N3 N4 N5.
  eexists _, _. split.
  { eapply bind_returned; [apply (connect_run env s st Hmic) | apply stop_run]. }
  unfold release_log, status_log, resume_log.
  cbn [processor source stream inputAudioContext outputAudioContext
       onStatusChange set_sessionPromise set_stream set_outputAudioContext
       set_inputAudioContext].
  repeat rewrite in_app_iff. repeat rewrite In_option_list.
  split; [intros H; crush_in; congruence|].
  split; [intros H; crush_in; congruence|].
  split; [intros H; crush_in; congruence|].
  simpl. tauto.
Qed.

Lemma reconnect_abandons_resources_witness :
  getUserMedia second_connect = inr (MediaStreamRef 2) /\
  inputAudioContext live_service = Some (AudioContextRef 1) /\
  outputAudioContext live_service = Some (AudioContextRef 2) /\
  stream live_service = Some (MediaStreamRef 1) /\
  exists s' log,
    (connect second_connect;; stop) live_service = Returned tt s' log /\
    ~ In (ContextClose (AudioContextRef 1)) log /\
    ~ In (ContextClose (AudioContextRef 2)) log /\
    ~ In (TracksStop (MediaStreamRef 1)) log /\
    In (ContextClose (AudioContextRef 3)) log /\
    In (ContextClose (AudioContextRef 4)) log /\
    In (TracksStop (MediaStreamRef 2)) log.
Proof.
  split; [reflexivity|]. split; [reflexivity|]. split; [reflexivity|].
  split; [reflexivity|].
  apply (reconnect_abandons_resources second_connect live_service
           (MediaStreamRef 2) (AudioContextRef 1) (AudioContextRef 2)
           (MediaStreamRef 1) eq_refl eq_refl eq_refl eq_refl);
    discriminate.
Defined.

Lemma stop_releases_what_is_held_witness :
  processor live_service = Some (ScriptProcessorRef 1) /\
  outputAudioContext live_service = Some (AudioContextRef 2) /\
  exists s' log,
    stop live_service = Returned tt s' log /\
    In (ProcessorDisconnect (ScriptProcessorRef 1)) log /\
    In (ContextClose (AudioContextRef 2)) log /\
    ~ In (ContextClose (AudioContextRef 9)) log /\
    currentSession s' = None /\
    nextStartTime s' = nextStartTime live_service.
Proof.
  split; [reflexivity|]. split; [reflexivity|].
  destruct (stop_releases_what_is_held live_service)
    as [s' [log [Hrun [Hp [_ [_ [_ [Hc [_ [_ [_ [_ [_ [Hs [Hn _]]]]]]]]]]]]]]].
  exists s', log. split; [exact Hrun|].
  split; [apply Hp; reflexivity|].
  split; [apply Hc; right; reflexivity|].
  split; [|split; assumption].
  intros Hin. apply Hc in Hin. destruct Hin as [H | H]; discriminate H.
Defined.
